(** * Cache-miss measurement scripts: a shallow embedding

    The development follows the two measurement scripts of the repository,
    [src/old/run.py] (module [OldRun]) and [src/ordered.py] (module
    [Ordered]).  Python builtins the scripts rely on ([str.split], [in],
    [str.replace], [int], [range], list indexing and slicing, [//] and [/])
    are modelled in module [Py].

    Conventions.
    - A Python [int] is a [Z].  A Python [float] produced by [/] is modelled
      by the exact quotient, a [Q] kept in lowest terms: the interpreter
      returns the double nearest to that quotient.
    - A raised exception is a value [Raise e] of the type [result]; code that
      can raise is written in the error monad.
    - The text printed by the external simulator is not computed by the
      scripts: it is a parameter (a [Variable] of the enclosing section).
    - The decoded diagnostic stream is a [string] of ASCII characters. *)

From Stdlib Require Import ZArith QArith Qreduction List String Ascii Bool Lia Lqa.
From Stdlib Require Import Permutation Sorted FinFun.
From Stdlib Require Import NArith.
From Stdlib Require Decimal DecimalString DecimalN.
Import ListNotations.

Local Open Scope string_scope.
Local Open Scope list_scope.
Local Open Scope Z_scope.

Set Implicit Arguments.

(* ================================================================== *)
(** * Python builtins *)
(* ================================================================== *)

Module Py.

(** The exceptions the scripts can meet. *)
Inductive exn : Type :=
| IndexError
| ValueError
| ZeroDivisionError.

Inductive result (A : Type) : Type :=
| Ok (a : A)
| Raise (e : exn).

Arguments Ok {A} a.
Arguments Raise {A} e.

Definition bind {A B : Type} (m : result A) (k : A -> result B) : result B :=
  match m with
  | Ok a => k a
  | Raise e => Raise e
  end.

Definition raises {A : Type} (m : result A) : bool :=
  match m with
  | Ok _ => false
  | Raise _ => true
  end.

(** [mapM f l] runs [f] on the elements of [l] from left to right and stops
    at the first exception. *)
Fixpoint mapM {A B : Type} (f : A -> result B) (l : list A) : result (list B) :=
  match l with
  | [] => Ok []
  | x :: t =>
      bind (f x) (fun y => bind (mapM f t) (fun ys => Ok (y :: ys)))
  end.

(** A Python value returned by the measurement step: the int [0] or a float. *)
Inductive value : Type :=
| VInt (z : Z)
| VFloat (q : Q).

Definition value_Q (v : value) : Q :=
  match v with
  | VInt z => inject_Z z
  | VFloat q => q
  end.

(** ** Arithmetic *)

(** [a // b] on ints: floor division, [ZeroDivisionError] on a zero divisor. *)
Definition floordiv (a b : Z) : result Z :=
  if b =? 0 then Raise ZeroDivisionError else Ok (a / b).

(** [a / b]: true division, [ZeroDivisionError] on a zero divisor.  The
    exact quotient stands for the double the interpreter returns: its
    rounding, and the [OverflowError] for operands beyond the range of a
    double, are not modelled. *)
Definition truediv (a b : Q) : result Q :=
  if Qeq_bool b 0 then Raise ZeroDivisionError else Ok (Qred (a / b)).

(** ** Sequences *)

(** [l[i]] with Python's negative indices. *)
Definition index {A : Type} (l : list A) (i : Z) : result A :=
  let n := Z.of_nat (List.length l) in
  let j := if i <? 0 then i + n else i in
  if (j <? 0) || (n <=? j) then Raise IndexError
  else match nth_error l (Z.to_nat j) with
       | Some x => Ok x
       | None => Raise IndexError
       end.

(** [l[lo:hi]] with Python's clipping of the two bounds. *)
Definition clip (n i : Z) : Z :=
  let j := if i <? 0 then i + n else i in
  Z.max 0 (Z.min n j).

Definition slice {A : Type} (l : list A) (lo hi : Z) : list A :=
  let n := Z.of_nat (List.length l) in
  let a := clip n lo in
  let b := clip n hi in
  firstn (Z.to_nat (b - a)) (skipn (Z.to_nat a) l).

(** Number of elements of [range(start, stop, step)] for [step <> 0]. *)
Definition range_len (start stop step : Z) : nat :=
  if 0 <? step then Z.to_nat ((stop - start + step - 1) / step)
  else Z.to_nat ((start - stop - step - 1) / (- step)).

Definition range_list (start stop step : Z) : list Z :=
  List.map (fun k => start + step * Z.of_nat k) (seq 0 (range_len start stop step)).

(** [range(start, stop, step)]: [ValueError] when [step] is zero. *)
Definition range (start stop step : Z) : result (list Z) :=
  if step =? 0 then Raise ValueError else Ok (range_list start stop step).

(** ** Dictionaries: insertion-ordered association lists *)

Fixpoint dict_set {V : Type} (k : Z) (v : V) (d : list (Z * V)) : list (Z * V) :=
  match d with
  | [] => [(k, v)]
  | (k', v') :: t =>
      if k' =? k then (k, v) :: t else (k', v') :: dict_set k v t
  end.

Definition keys {V : Type} (d : list (Z * V)) : list Z := List.map fst d.

(** The same for keys that are strings. *)
Fixpoint sdict_set {V : Type} (k : string) (v : V) (d : list (string * V))
  : list (string * V) :=
  match d with
  | [] => [(k, v)]
  | (k', v') :: t =>
      if String.eqb k' k then (k, v) :: t else (k', v') :: sdict_set k v t
  end.

(** ** Strings *)

(** Characters [str.split()] treats as white space (ASCII range). *)
Definition isspace (c : ascii) : bool :=
  let n := nat_of_ascii c in
  (((9 <=? n) && (n <=? 13)) || ((28 <=? n) && (n <=? 32)))%nat.

Definition is_empty (s : string) : bool :=
  match s with
  | EmptyString => true
  | String _ _ => false
  end.

(** [s.split()]: the maximal runs of characters that are not white space. *)
Fixpoint split_ws_from (cur s : string) : list string :=
  match s with
  | EmptyString => if is_empty cur then [] else [cur]
  | String c s' =>
      if isspace c
      then (if is_empty cur then split_ws_from "" s'
            else cur :: split_ws_from "" s')
      else split_ws_from (String.append cur (String c "")) s'
  end.

Definition split_ws (s : string) : list string := split_ws_from "" s.

(** [s.split(sep)] for a separator of one character. *)
Fixpoint split_on (sep : ascii) (s : string) : list string :=
  match s with
  | EmptyString => [""]
  | String c s' =>
      if Ascii.eqb c sep then "" :: split_on sep s'
      else match split_on sep s' with
           | h :: t => String c h :: t
           | [] => [String c ""]
           end
  end.

(** [needle in hay]. *)
Fixpoint contains (needle hay : string) : bool :=
  String.prefix needle hay ||
  match hay with
  | EmptyString => false
  | String _ hay' => contains needle hay'
  end.

(** [s.replace(old, new)] for [old] of one character. *)
Fixpoint replace (old : ascii) (new : string) (s : string) : string :=
  match s with
  | EmptyString => EmptyString
  | String c s' =>
      if Ascii.eqb c old then String.append new (replace old new s')
      else String c (replace old new s')
  end.

(** ['sep'.join(l)] for the empty separator. *)
Definition join (l : list string) : string :=
  fold_right String.append "" l.

(** [hay.index(c)] for [c] of one character: position of its first
    occurrence, [ValueError] when absent. *)
Fixpoint str_index_from (pos : Z) (c : ascii) (hay : string) : result Z :=
  match hay with
  | EmptyString => Raise ValueError
  | String h hay' =>
      if Ascii.eqb h c then Ok pos else str_index_from (pos + 1) c hay'
  end.

Definition str_index (hay : string) (c : ascii) : result Z :=
  str_index_from 0 c hay.

(** Characters of a string, as iterating over it yields them. *)
Fixpoint chars (s : string) : list ascii :=
  match s with
  | EmptyString => []
  | String c s' => c :: chars s'
  end.

(** ** [int(s)] on a string *)

Definition digit_val (c : ascii) : option Z :=
  let n := nat_of_ascii c in
  if ((48 <=? n) && (n <=? 57))%nat then Some (Z.of_nat (n - 48)) else None.

(** Decimal digits, single underscores allowed between two digits.
    [prev] tells whether the previous character was a digit. *)
Fixpoint digits (acc : Z) (prev : bool) (s : string) : option Z :=
  match s with
  | EmptyString => if prev then Some acc else None
  | String c s' =>
      match digit_val c with
      | Some d => digits (10 * acc + d) true s'
      | None =>
          if Ascii.eqb c "_" && prev then digits acc false s' else None
      end
  end.

(** [int(s)] in base ten: an optional sign, then digits.  The builtin also
    drops white space around the number; the scripts call it on tokens of
    [split()], which hold none.  The interpreter's bound on the number of
    digits is not modelled. *)
Definition int (s : string) : result Z :=
  let parsed :=
    match s with
    | String "+" r => digits 0 false r
    | String "-" r => option_map Z.opp (digits 0 false r)
    | _ => digits 0 false s
    end in
  match parsed with
  | Some z => Ok z
  | None => Raise ValueError
  end.

End Py.

Import Py.

Notation "x <- m ;; k" := (bind m (fun x => k))
  (at level 61, m at next level, right associativity).
Notation "' p <- m ;; k" := (bind m (fun p => k))
  (at level 61, p pattern, m at next level, right associativity).

(** Line feed, the separator of [split('\n')]. *)
Definition LF : ascii := ascii_of_nat 10.

(* ================================================================== *)
(** * Reading the simulator's summary (both scripts) *)
(* ================================================================== *)

(** [int(line.split()[3].replace(',', ''))]: the fourth token of the line,
    commas removed, read as an int. *)
Definition counter (line : string) : result Z :=
  tok <- index (split_ws line) 3 ;;
  int (replace "," "" tok).

(** The loop over the lines of the stream, with the two counters as its
    state.  The label of the miss line is spelt with two spaces. *)
Fixpoint scan (lines : list string) (d1_miss drefs : Z) : result (Z * Z) :=
  match lines with
  | [] => Ok (d1_miss, drefs)
  | line :: rest =>
      if contains "D1  misses" line then
        v <- counter line ;; scan rest v drefs
      else if contains "D refs" line then
        v <- counter line ;; scan rest d1_miss v
      else scan rest d1_miss drefs
  end.

(** [stderr.decode().split('\n')] *)
Definition stream_lines (stderr : string) : list string :=
  split_on LF stderr.

(* ================================================================== *)
(** * src/old/run.py *)
(* ================================================================== *)

Module OldRun.

(** The namespace built by the argument parser. *)
Record Args : Type := mkArgs {
  type : string;
  size : Z;
  cache : Z;
  block : Z;
  assoc : option Z;
  remove_cold : bool;
  batch : string;
  batch_start : Z;
  batch_end : Z;
  batch_step : Z
}.

Definition set_cache (a : Args) (v : Z) : Args :=
  mkArgs (type a) (size a) v (block a) (assoc a) (remove_cold a)
         (batch a) (batch_start a) (batch_end a) (batch_step a).

Definition set_assoc (a : Args) (v : option Z) : Args :=
  mkArgs (type a) (size a) (cache a) (block a) v (remove_cold a)
         (batch a) (batch_start a) (batch_end a) (batch_step a).

Definition set_size (a : Args) (v : Z) : Args :=
  mkArgs (type a) v (cache a) (block a) (assoc a) (remove_cold a)
         (batch a) (batch_start a) (batch_end a) (batch_step a).

(** The cold-miss estimate of [execute]. *)
Definition cold_miss (args : Args) : result Q :=
  if remove_cold args
  then truediv (inject_Z (size args * size args * 3)) (inject_Z (block args))
  else Ok (inject_Z 0).

(** The part of [execute] that follows [simulation.communicate()]: the
    cold-miss estimate, the scan and the ratio. *)
Definition measure (args : Args) (stderr : string) : result value :=
  cold_miss <- cold_miss args ;;
  '(d1_miss, drefs) <- scan (stream_lines stderr) 0 0 ;;
  if drefs =? 0 then Ok (VInt 0)
  else
    r <- truediv (inject_Z d1_miss - cold_miss)%Q (inject_Z drefs) ;;
    Ok (VFloat r).

(** The step of [main] that resolves the default associativity. *)
Definition resolve_assoc (args : Args) : result Args :=
  match assoc args with
  | None =>
      a <- floordiv (cache args) (block args) ;;
      Ok (set_assoc args (Some a))
  | Some _ => Ok args
  end.

(** The configuration of the unit of work for the swept value [i]. *)
Definition unit_args (args : Args) (i : Z) : result Args :=
  let my_args := args in
  if String.eqb (batch args) "cache" then
    let my_args := set_cache my_args i in
    a <- floordiv (cache my_args) (block my_args) ;;
    Ok (set_assoc my_args (Some a))
  else if String.eqb (batch args) "size" then
    Ok (set_size my_args i)
  else Ok my_args.

Section Simulator.

(** The diagnostic text the simulator prints for a compiled kernel:
    data type, size, then the geometry cache, associativity, block. *)
Variable valgrind : string -> Z -> Z -> option Z -> Z -> string.

(** What [simulation.communicate()] returns as the diagnostic stream. *)
Definition simulation (args : Args) : string :=
  valgrind (type args) (size args) (cache args) (assoc args) (block args).

Definition execute (args : Args) : result value :=
  let stderr := simulation args in
  measure args stderr.

(** First loop of [batch_execute]: one task per swept value, stored under
    its key.  A task is represented by the outcome it will have: the units
    share no state, so the outcome of each is a function of its own
    configuration, whatever the interleaving. *)
Fixpoint make_tasks (args : Args) (ks : list Z)
         (tasks : list (Z * result value)) : result (list (Z * result value)) :=
  match ks with
  | [] => Ok tasks
  | i :: ks' =>
      my_args <- unit_args args i ;;
      make_tasks args ks' (dict_set i (execute my_args) tasks)
  end.

(** Second loop: the tasks are awaited in the order of the dictionary. *)
Fixpoint await_all (tasks : list (Z * result value))
         (res : list (Z * value)) : result (list (Z * value)) :=
  match tasks with
  | [] => Ok res
  | (k, v) :: tasks' =>
      r <- v ;;
      await_all tasks' (dict_set k r res)
  end.

Definition batch_execute (args : Args) : result (list (Z * value)) :=
  ks <- range (batch_start args) (batch_end args + 1) (batch_step args) ;;
  tasks <- make_tasks args ks [] ;;
  await_all tasks [].


Definition main_batch (args : Args) : result (list (Z * value)) :=
  args' <- resolve_assoc args ;;
  batch_execute args'.

End Simulator.

End OldRun.

(* ================================================================== *)
(** * src/ordered.py *)
(* ================================================================== *)

Module Ordered.

(** What [compile_matrix] leaves in the working directory: the kernel
    built with the given defines. *)
Record Binary : Type := mkBinary {
  bin_M : Z;
  bin_N : Z;
  bin_type : string;
  bin_loop0 : string;
  bin_loop1 : string;
  bin_loop2 : string
}.

Definition compile_matrix (M N : Z) (type : string) (order : list string)
  : result Binary :=
  l0 <- index order 0 ;;
  l1 <- index order 1 ;;
  l2 <- index order 2 ;;
  Ok (mkBinary M N type l0 l1 l2).

(** The part of [run_valgrind] that follows [simulation.communicate()]. *)
Definition measure (stderr : string) : result value :=
  '(d1_miss, drefs) <- scan (stream_lines stderr) 0 0 ;;
  if drefs =? 0 then Ok (VInt 0)
  else
    r <- truediv (inject_Z d1_miss) (inject_Z drefs) ;;
    Ok (VFloat r).

(** The associativity [run_valgrind] passes to the simulator. *)
Definition resolve_assoc (cache_size block_size : Z) (assoc : option Z)
  : result Z :=
  match assoc with
  | None => floordiv cache_size block_size
  | Some a => Ok a
  end.

Definition orders : list string := ["I_LOOP"; "J_LOOP"; "K_LOOP"].

(** [order_generator()], as the list of the triples it yields. *)
Definition order_generator : result (list (list string)) :=
  rows <- mapM (fun i =>
            mapM (fun j =>
              if negb (i =? j) then
                a <- index orders i ;;
                b <- index orders j ;;
                c <- index orders (3 - i - j) ;;
                Ok [[a; b; c]]
              else Ok [])
            (range_list 0 3 1))
          (range_list 0 3 1) ;;
  Ok (List.concat (List.concat rows)).

Definition order_to_name (order : list string) : result string :=
  parts <- mapM (fun i => index (split_on "_" i) 0) order ;;
  Ok (join parts).

Definition name_to_order (name : string) : result (list string) :=
  mapM (fun i => k <- str_index "IJK" i ;; index orders k) (chars name).

Section Simulator.

(** The diagnostic text the simulator prints for a binary under the
    geometry cache size, associativity, block size. *)
Variable cachegrind : Binary -> Z -> Z -> Z -> string.

Definition run_valgrind (exe : Binary) (cache_size block_size : Z)
           (assoc : option Z) : result value :=
  a <- resolve_assoc cache_size block_size assoc ;;
  measure (cachegrind exe cache_size a block_size).

(** The inner coroutine [_task(m, n)] of [data_collect_tasks]. *)
Definition _task (order : list string) (cache_size block_size : Z)
           (assoc : option Z) (m n : Z) : result (Z * Z * value) :=
  exe <- compile_matrix m n "double" order ;;
  mr <- run_valgrind exe cache_size block_size assoc ;;
  Ok (m, n, mr).

(** [data_collect_tasks]: the coroutines in the order they are yielded,
    each represented by the outcome it will have. *)
Definition data_collect_tasks (order : list string) (cache_size block_size : Z)
           (assoc : option Z) (m_range n_range : Z * Z * Z)
  : result (list (result (Z * Z * value))) :=
  let '(m0, m1, ms) := m_range in
  let '(n0, n1, ns) := n_range in
  mrange <- range m0 m1 ms ;;
  rows <- mapM (fun m =>
            nrange <- range n0 n1 ns ;;
            Ok (List.map (fun n => _task order cache_size block_size assoc m n)
                         nrange))
          mrange ;;
  Ok (List.concat rows).

(** [asyncio.gather]: the results in the order of the arguments.  When
    several coroutines raise, the interpreter propagates the exception
    raised first in time; the model names the first in the order of the
    arguments. *)
Definition gather {A : Type} (ts : list (result A)) : result (list A) :=
  mapM (fun t => t) ts.

(** The loop of [batched_execute] over the batch starts. *)
Fixpoint run_batches {A : Type} (tasks : list (result A)) (batch_size : Z)
         (starts : list Z) (results : list A) : result (list A) :=
  match starts with
  | [] => Ok results
  | i :: starts' =>
      rs <- gather (slice tasks i (i + batch_size)) ;;
      run_batches tasks batch_size starts' (results ++ rs)
  end.

Definition batched_execute (order : list string) (batch_size : Z)
           (cache_size block_size : Z) (assoc : option Z)
           (m_range n_range : Z * Z * Z) : result (list (Z * Z * value)) :=
  tasks <- data_collect_tasks order cache_size block_size assoc
                              m_range n_range ;;
  starts <- range 0 (Z.of_nat (List.length tasks)) batch_size ;;
  run_batches tasks batch_size starts [].

End Simulator.

(** The namespace built by the argument parser of [src/ordered.py]. *)
Record Args : Type := mkArgs {
  type : string;
  size : Z;
  cache : Z;
  block : Z;
  assoc : option Z;
  m_range : Z * Z * Z;
  n_range : Z * Z * Z;
  batch : Z;
  order : string;
  output : option string
}.

Section Main.

Variable cachegrind : Binary -> Z -> Z -> Z -> string.

(** The loop of [main] over the orders: each order is swept, and the
    results are stored under the name of the order. *)
Fixpoint main_loop (args : Args) (order_list : list (list string))
         (data : list (string * list (Z * Z * value)))
  : result (list (string * list (Z * Z * value))) :=
  match order_list with
  | [] => Ok data
  | o :: rest =>
      results <- batched_execute cachegrind o (batch args) (cache args)
                                 (block args) (assoc args)
                                 (m_range args) (n_range args) ;;
      name <- order_to_name o ;;
      main_loop args rest (sdict_set name results data)
  end.

(** [main], up to the serialisation of [data]. *)
Definition main (args : Args) : result (list (string * list (Z * Z * value))) :=
  order_list <- (if String.eqb (order args) "ALL"
                 then order_generator
                 else mapM name_to_order (split_on "," (order args))) ;;
  main_loop args order_list [].

End Main.

End Ordered.

(* ================================================================== *)
(** * src/plot.py *)
(* ================================================================== *)

Module Plot.

(** [plot_3d], up to the call of the charting library: the three columns
    it passes to [plot_trisurf].  A row is the list read back for one
    result. *)
Definition plot_3d (data : list (list value))
  : result (list value * list value * list value) :=
  x <- mapM (fun i => index i 0) data ;;
  y <- mapM (fun i => index i 1) data ;;
  z <- mapM (fun i => index i 2) data ;;
  Ok (x, y, z).

End Plot.

(* ================================================================== *)
(** * Statement devices *)
(* ================================================================== *)

(** A stream written as its lines: the lines joined by line feeds. *)
Fixpoint unlines (ls : list string) : string :=
  match ls with
  | [] => ""
  | [l] => l
  | l :: ls' => String.append l (String LF (unlines ls'))
  end.

(** A line that carries neither label. *)
Definition plain (line : string) : bool :=
  negb (contains "D1  misses" line) && negb (contains "D refs" line).

(** A line without a line feed. *)
Definition one_line (line : string) : bool :=
  forallb (fun c => negb (Ascii.eqb c LF)) (chars line).

(** A line the scan reads without raising. *)
Definition readable (line : string) : bool :=
  plain line || negb (raises (counter line)).

(** A reference line, respectively a miss line, carrying the count [v]:
    the branch of the scan it takes and what the scan reads on it. *)
Definition refs_line (l : string) (v : Z) : Prop :=
  contains "D1  misses" l = false /\ contains "D refs" l = true /\
  counter l = Ok v.

Definition miss_line (l : string) (v : Z) : Prop :=
  contains "D1  misses" l = true /\ counter l = Ok v.

(** The ratio the scripts return for the counters [m] and [r] and the
    cold-miss estimate [c]. *)
Definition ratio (m : Z) (c : Q) (r : Z) : value :=
  if r =? 0 then VInt 0
  else VFloat (Qred ((inject_Z m - c) / inject_Z r)).

(** The three loop letters. *)
Definition loop_letter (c : ascii) : bool :=
  Ascii.eqb c "I" || Ascii.eqb c "J" || Ascii.eqb c "K".

(** The pairs [(m, n)] in the order the two nested loops produce them. *)
Definition pairs (ms ns : list Z) : list (Z * Z) :=
  flat_map (fun m => List.map (fun n => (m, n)) ns) ms.

(** A configuration of [src/old/run.py] with the defaults of its parser. *)
Definition default_args : OldRun.Args :=
  OldRun.mkArgs "double" 128 1024 32 None false "" 0 0 1.

(** The same with cold-miss removal enabled, for a kernel of dimension
    [n] and a line size [b]. *)
Definition cold_args (n b : Z) : OldRun.Args :=
  OldRun.mkArgs "double" n 1024 b (Some 32) true "" 0 0 1.

(** A summary as the simulator prints it, with the given counts. *)
Definition summary (refs misses : string) : string :=
  unlines [String.append "==1== D refs: " refs;
           String.append "==1== D1  misses: " misses].

(** A simulator that prints the same text whatever it is run on. *)
Definition const_valgrind (text : string)
  : string -> Z -> Z -> option Z -> Z -> string :=
  fun _ _ _ _ _ => text.

Definition const_cachegrind (text : string)
  : Ordered.Binary -> Z -> Z -> Z -> string :=
  fun _ _ _ _ => text.

(** The kernel [compile_matrix] builds with its default arguments. *)
Definition default_binary : Ordered.Binary :=
  Ordered.mkBinary 16 16 "double" "I_LOOP" "J_LOOP" "K_LOOP".

(** What the unit of work for the swept value [k] returns: its
    configuration is built, then measured. *)
Definition unit_result (valgrind : string -> Z -> Z -> option Z -> Z -> string)
           (args : OldRun.Args) (k : Z) : result value :=
  a <- OldRun.unit_args args k ;; OldRun.execute valgrind a.

(** One step of each loop of [batch_execute] when no key repeats: the task
    stored under the key [i], and the result stored once it is awaited. *)
Definition sweep_task (valgrind : string -> Z -> Z -> option Z -> Z -> string)
           (args : OldRun.Args) (i : Z) : result (Z * result value) :=
  a <- OldRun.unit_args args i ;; Ok (i, OldRun.execute valgrind a).

Definition sweep_await (kt : Z * result value) : result (Z * value) :=
  r <- snd kt ;; Ok (fst kt, r).

(** Sweeps of [src/old/run.py]: over the cache size from 256 to 1024 by
    256 with an associativity of 2 supplied, and over the size from 8 to 16
    by 8 with the default associativity resolved. *)
Definition cache_sweep_args : OldRun.Args :=
  OldRun.mkArgs "double" 16 1024 32 (Some 2) false "cache" 256 1024 256.

Definition size_sweep_args : OldRun.Args :=
  OldRun.mkArgs "double" 16 1024 32 (Some 32) false "size" 8 16 8.

(** A sweep of [src/old/run.py] over the size that counts down from 3. *)
Definition down_sweep_args : OldRun.Args :=
  OldRun.mkArgs "double" 16 1024 32 (Some 32) false "size" 3 0 (-1).

(** What a failed run of the simulator may leave on the stream: an error
    message and a miss line, no reference line. *)
Definition failed_run : string :=
  unlines ["valgrind: failed to start"; "==1== D1  misses: 7"].

(** The closed unit interval of the rationals. *)
Definition in_unit (q : Q) : Prop := (0 <= q /\ q <= 1)%Q.

(** A sweep of [src/old/run.py] over the size from 0 to 10 by 3, one with
    a step of zero, and one over a field the script does not know. *)
Definition sweep_0_10_3 : OldRun.Args :=
  OldRun.mkArgs "double" 16 1024 32 (Some 32) false "size" 0 10 3.

Definition sweep_step_0 : OldRun.Args :=
  OldRun.mkArgs "double" 16 1024 32 (Some 32) false "size" 0 10 0.

Definition sweep_unknown : OldRun.Args :=
  OldRun.mkArgs "double" 16 1024 32 (Some 32) false "block" 1 3 1.

(** The branch of the scan a line takes: read as the miss count, or read
    as the reference count. *)
Definition takes_miss (l : string) : bool := contains "D1  misses" l.

Definition takes_refs (l : string) : bool :=
  negb (contains "D1  misses" l) && contains "D refs" l.

(** The last line of a list that satisfies [p]. *)
Definition last_of (p : string -> bool) (ls : list string) : option string :=
  find p (rev ls).

(** The count read on the last line that satisfies [p], [d] when there is
    none. *)
Definition read_last (p : string -> bool) (ls : list string) (d : Z)
  : result Z :=
  match last_of p ls with
  | Some l => counter l
  | None => Ok d
  end.

(** The lines of a stream that carry a label. *)
Definition labelled_lines (stderr : string) : list string :=
  filter (fun l => negb (plain l)) (stream_lines stderr).

(** White space only, possibly empty; a token as [split()] returns them. *)
Definition blank (s : string) : bool := forallb isspace (chars s).

Definition token (s : string) : bool :=
  negb (is_empty s) && forallb (fun c => negb (isspace c)) (chars s).

(** A line written as its tokens, each after its padding, and a trailing
    padding. *)
Fixpoint pad_join (pts : list (string * string)) (trail : string) : string :=
  match pts with
  | [] => trail
  | (pad, tok) :: rest =>
      String.append pad (String.append tok (pad_join rest trail))
  end.

(** Every token is a token, the padding before the first token is blank and
    the padding before each later token is blank and not empty. *)
Definition well_padded (pts : list (string * string)) (trail : string) : bool :=
  blank trail &&
  forallb (fun pt => blank (fst pt) && token (snd pt)) pts &&
  forallb (fun pt => negb (is_empty (fst pt))) (tl pts).

(** The loop macro a loop letter stands for, and the order a name stands
    for, letter by letter. *)
Definition macro (c : ascii) : string := String c "_LOOP".

Definition macros (name : string) : list string :=
  List.map macro (chars name).

(** A sweep of [src/ordered.py]: the geometry and the two ranges. *)
Definition small_sweep (cachegrind : Ordered.Binary -> Z -> Z -> Z -> string)
           (order : list string) (batch_size : Z)
  : result (list (Z * Z * value)) :=
  Ordered.batched_execute cachegrind order batch_size 1024 32 None
                          (1, 3, 1) (5, 8, 1).

(** A name made of loop letters. *)
Definition valid_name (s : string) : bool := forallb loop_letter (chars s).

(** The configuration of [src/ordered.py] with another order string. *)
Definition set_order (a : Ordered.Args) (o : string) : Ordered.Args :=
  Ordered.mkArgs (Ordered.type a) (Ordered.size a) (Ordered.cache a)
                 (Ordered.block a) (Ordered.assoc a) (Ordered.m_range a)
                 (Ordered.n_range a) (Ordered.batch a) o (Ordered.output a).

(** The series [main] stores for a name: the sweep of the order the name
    stands for, under that name. *)
Definition series (cachegrind : Ordered.Binary -> Z -> Z -> Z -> string)
           (args : Ordered.Args) (name : string)
  : result (string * list (Z * Z * value)) :=
  results <- Ordered.batched_execute cachegrind (macros name)
               (Ordered.batch args) (Ordered.cache args) (Ordered.block args)
               (Ordered.assoc args) (Ordered.m_range args)
               (Ordered.n_range args) ;;
  Ok (name, results).

(** The six names of the loop orders, as [order_generator] yields them. *)
Definition all_names : list string :=
  ["IJK"; "IKJ"; "JIK"; "JKI"; "KIJ"; "KJI"].

(** A configuration of [src/ordered.py]: a small sweep, in batches of 4,
    for the orders named by [o]. *)
Definition ordered_args (o : string) : Ordered.Args :=
  Ordered.mkArgs "double" 128 1024 32 None (1, 3, 1) (5, 8, 1) 4 o None.

(** Every row has at least three entries. *)
Definition three_wide (data : list (list value)) : bool :=
  forallb (fun row => (3 <=? List.length row)%nat) data.

(** A sweep of [src/ordered.py] whose range of M is empty and whose range
    of N has a step of zero. *)
Definition empty_m_zero_n (cachegrind : Ordered.Binary -> Z -> Z -> Z -> string)
  : result (list (Z * Z * value)) :=
  Ordered.batched_execute cachegrind Ordered.orders 4 1024 32 None
                          (3, 1, 1) (5, 8, 0).

(* ================================================================== *)
(** * General lemmas *)
(* ================================================================== *)

Section MonadLemmas.

Context {A B : Type}.

Lemma bind_ok_inv (m : result A) (k : A -> result B) (b : B) :
  bind m k = Ok b -> exists a, m = Ok a /\ k a = Ok b.
Proof.
  destruct m as [a|e]; simpl; intros H.
  - exists a; split; [reflexivity | exact H].
  - discriminate H.
Qed.

Lemma mapM_app (f : A -> result B) (l1 l2 : list A) :
  mapM f (l1 ++ l2) =
  bind (mapM f l1) (fun r1 => bind (mapM f l2) (fun r2 => Ok (r1 ++ r2))).
Proof.
  induction l1 as [|x l1 IH]; simpl.
  - destruct (mapM f l2); reflexivity.
  - destruct (f x) as [y|e]; simpl; [|reflexivity].
    rewrite IH.
    destruct (mapM f l1) as [r1|e]; simpl; [|reflexivity].
    destruct (mapM f l2) as [r2|e]; reflexivity.
Qed.

Lemma mapM_ok_length (f : A -> result B) (l : list A) (r : list B) :
  mapM f l = Ok r -> List.length r = List.length l.
Proof.
  revert r; induction l as [|x l IH]; simpl; intros r H.
  - inversion H; reflexivity.
  - destruct (f x) as [y|e]; simpl in H; [|discriminate].
    destruct (mapM f l) as [ys|e]; simpl in H; [|discriminate].
    inversion H; subst; simpl; f_equal; apply IH; reflexivity.
Qed.

Lemma mapM_all_ok (f : A -> result B) (l : list A) :
  (forall x, In x l -> exists y, f x = Ok y) ->
  exists r, mapM f l = Ok r.
Proof.
  induction l as [|x l IH]; simpl; intros H.
  - eexists; reflexivity.
  - destruct (H x (or_introl eq_refl)) as [y Hy].
    destruct IH as [r Hr]; [intros; apply H; right; assumption|].
    exists (y :: r). rewrite Hy, Hr. reflexivity.
Qed.

Lemma mapM_ok_Forall2 (f : A -> result B) (l : list A) (r : list B) :
  mapM f l = Ok r -> Forall2 (fun x y => f x = Ok y) l r.
Proof.
  revert r; induction l as [|x l IH]; simpl; intros r H.
  - inversion H; constructor.
  - destruct (f x) as [y|e] eqn:Hx; simpl in H; [|discriminate].
    destruct (mapM f l) as [ys|e]; simpl in H; [|discriminate].
    inversion H; subst. constructor; [exact Hx | apply IH; reflexivity].
Qed.

End MonadLemmas.

(** ** Lines of a stream *)

Lemma split_on_one_line (l : string) :
  one_line l = true -> split_on LF l = [l].
Proof.
  induction l as [|c l IH]; simpl; intros H; [reflexivity|].
  unfold one_line in H; simpl in H.
  apply andb_true_iff in H as [Hc Hl].
  apply negb_true_iff in Hc. rewrite Hc.
  rewrite (IH Hl). reflexivity.
Qed.

Lemma split_on_append (l s : string) :
  one_line l = true ->
  split_on LF (String.append l (String LF s)) = l :: split_on LF s.
Proof.
  induction l as [|c l IH]; simpl; intros H.
  - reflexivity.
  - unfold one_line in H; simpl in H.
    apply andb_true_iff in H as [Hc Hl].
    apply negb_true_iff in Hc. rewrite Hc.
    rewrite (IH Hl). reflexivity.
Qed.

Lemma stream_lines_unlines (ls : list string) :
  ls <> [] -> forallb one_line ls = true ->
  stream_lines (unlines ls) = ls.
Proof.
  unfold stream_lines.
  induction ls as [|l ls IH]; intros Hne H; [congruence|].
  simpl in H. apply andb_true_iff in H as [Hl Hls].
  destruct ls as [|l' ls'].
  - simpl. apply split_on_one_line; assumption.
  - change (unlines (l :: l' :: ls'))
      with (String.append l (String LF (unlines (l' :: ls')))).
    rewrite split_on_append by assumption.
    rewrite IH; [reflexivity | discriminate | assumption].
Qed.

(** ** The scan *)

Lemma scan_app (a b : list string) (m r : Z) :
  scan (a ++ b) m r = bind (scan a m r) (fun p => scan b (fst p) (snd p)).
Proof.
  revert m r; induction a as [|l a IH]; intros m r; simpl; [reflexivity|].
  destruct (contains "D1  misses" l).
  - destruct (counter l) as [v|e]; simpl; [apply IH | reflexivity].
  - destruct (contains "D refs" l).
    + destruct (counter l) as [v|e]; simpl; [apply IH | reflexivity].
    + apply IH.
Qed.

Lemma scan_plain (ls : list string) (m r : Z) :
  forallb plain ls = true -> scan ls m r = Ok (m, r).
Proof.
  induction ls as [|l ls IH]; simpl; intros H; [reflexivity|].
  apply andb_true_iff in H as [Hl Hls].
  unfold plain in Hl. apply andb_true_iff in Hl as [H1 H2].
  apply negb_true_iff in H1, H2. rewrite H1, H2. apply IH; assumption.
Qed.

Lemma scan_miss_line (l : string) (rest : list string) (m r v : Z) :
  contains "D1  misses" l = true -> counter l = Ok v ->
  scan (l :: rest) m r = scan rest v r.
Proof. intros H1 H2; simpl; rewrite H1, H2; reflexivity. Qed.

Lemma scan_refs_line (l : string) (rest : list string) (m r v : Z) :
  contains "D1  misses" l = false -> contains "D refs" l = true ->
  counter l = Ok v ->
  scan (l :: rest) m r = scan rest m v.
Proof. intros H1 H2 H3; simpl; rewrite H1, H2, H3; reflexivity. Qed.

(** The scan raises only what reading a counter raises. *)
Lemma counter_no_division (l : string) :
  counter l <> Raise ZeroDivisionError.
Proof.
  unfold counter.
  destruct (index (split_ws l) 3) as [tok|e] eqn:E; simpl.
  - unfold int.
    destruct (match replace "," "" tok with
              | String "+" r => _ | String "-" r => _ | _ => _ end);
      discriminate.
  - unfold index in E.
    destruct (_ || _); [congruence|].
    destruct (nth_error _ _); congruence.
Qed.

Lemma scan_no_division (ls : list string) (m r : Z) :
  scan ls m r <> Raise ZeroDivisionError.
Proof.
  revert m r; induction ls as [|l ls IH]; intros m r; simpl; [discriminate|].
  destruct (contains "D1  misses" l).
  - destruct (counter l) as [v|e] eqn:E; simpl; [apply IH|].
    intros H; apply (counter_no_division l); congruence.
  - destruct (contains "D refs" l); [|apply IH].
    destruct (counter l) as [v|e] eqn:E; simpl; [apply IH|].
    intros H; apply (counter_no_division l); congruence.
Qed.

(** Without a reference line the reference counter keeps its value. *)
Lemma scan_no_refs (ls : list string) (m r : Z) :
  forallb (fun l => negb (contains "D refs" l)) ls = true ->
  forallb readable ls = true ->
  exists m', scan ls m r = Ok (m', r).
Proof.
  revert m; induction ls as [|l ls IH]; intros m Hr Hs; simpl.
  - exists m; reflexivity.
  - simpl in Hr, Hs.
    apply andb_true_iff in Hr as [Hr1 Hr2].
    apply andb_true_iff in Hs as [Hs1 Hs2].
    apply negb_true_iff in Hr1. rewrite Hr1.
    destruct (contains "D1  misses" l) eqn:Hm.
    + unfold readable, plain in Hs1. rewrite Hm in Hs1. simpl in Hs1.
      destruct (counter l) as [v|e]; simpl in *; [|discriminate].
      apply IH; assumption.
    + apply IH; assumption.
Qed.

(** ** The ratio *)

Lemma Qeq_bool_inject_Z (r : Z) : Qeq_bool (inject_Z r) 0 = (r =? 0).
Proof.
  destruct (Z.eqb_spec r 0) as [->|Hr]; [reflexivity|].
  destruct (Qeq_bool (inject_Z r) 0) eqn:E; [|reflexivity].
  apply Qeq_bool_eq in E. unfold Qeq in E; simpl in E. lia.
Qed.

Lemma truediv_inject_Z (a : Q) (r : Z) :
  r <> 0 -> truediv a (inject_Z r) = Ok (Qred (a / inject_Z r)).
Proof.
  intros Hr. unfold truediv. rewrite Qeq_bool_inject_Z.
  destruct (Z.eqb_spec r 0); [contradiction | reflexivity].
Qed.

Lemma ordered_measure_of_scan (stderr : string) (m r : Z) :
  scan (stream_lines stderr) 0 0 = Ok (m, r) ->
  Ordered.measure stderr = Ok (ratio m 0 r).
Proof.
  intros H. unfold Ordered.measure, ratio. rewrite H.
  cbv beta iota delta [bind].
  destruct (Z.eqb_spec r 0) as [->|Hr]; [reflexivity|].
  rewrite truediv_inject_Z by assumption.
  do 2 f_equal. apply Qred_complete.
  unfold Qminus. change (- 0)%Q with 0%Q.
  rewrite Qplus_0_r. reflexivity.
Qed.

Lemma oldrun_measure_of_scan (args : OldRun.Args) (stderr : string)
      (c : Q) (m r : Z) :
  OldRun.cold_miss args = Ok c ->
  scan (stream_lines stderr) 0 0 = Ok (m, r) ->
  OldRun.measure args stderr = Ok (ratio m c r).
Proof.
  intros Hc H. unfold OldRun.measure, ratio. rewrite Hc, H.
  cbv beta iota delta [bind].
  destruct (Z.eqb_spec r 0) as [->|Hr]; [reflexivity|].
  rewrite truediv_inject_Z by assumption. reflexivity.
Qed.

Lemma cold_miss_disabled (args : OldRun.Args) :
  OldRun.remove_cold args = false -> OldRun.cold_miss args = Ok 0%Q.
Proof. intros H. unfold OldRun.cold_miss. rewrite H. reflexivity. Qed.

Lemma cold_miss_enabled (args : OldRun.Args) :
  OldRun.remove_cold args = true -> OldRun.block args <> 0 ->
  OldRun.cold_miss args =
  Ok (Qred (inject_Z (OldRun.size args * OldRun.size args * 3)
            / inject_Z (OldRun.block args))).
Proof.
  intros H Hb. unfold OldRun.cold_miss. rewrite H.
  apply truediv_inject_Z; assumption.
Qed.

(** Two labelled lines among plain ones, in either order. *)
Lemma scan_two_lines (pre mid post : list string) (lr lm : string)
      (refs misses : Z) :
  forallb plain (pre ++ mid ++ post) = true ->
  refs_line lr refs -> miss_line lm misses ->
  scan (pre ++ lr :: mid ++ lm :: post) 0 0 = Ok (misses, refs) /\
  scan (pre ++ lm :: mid ++ lr :: post) 0 0 = Ok (misses, refs).
Proof.
  intros Hp (Hr1 & Hr2 & Hr3) (Hm1 & Hm2).
  rewrite !forallb_app in Hp.
  apply andb_true_iff in Hp as [Hpre Hp].
  apply andb_true_iff in Hp as [Hmid Hpost].
  split.
  - rewrite scan_app, (scan_plain pre) by assumption. cbv beta iota delta [bind fst snd].
    rewrite (@scan_refs_line lr _ _ _ refs Hr1 Hr2 Hr3).
    rewrite scan_app, (scan_plain mid) by assumption. cbv beta iota delta [bind fst snd].
    rewrite (@scan_miss_line lm _ _ _ misses Hm1 Hm2).
    apply scan_plain; assumption.
  - rewrite scan_app, (scan_plain pre) by assumption. cbv beta iota delta [bind fst snd].
    rewrite (@scan_miss_line lm _ _ _ misses Hm1 Hm2).
    rewrite scan_app, (scan_plain mid) by assumption. cbv beta iota delta [bind fst snd].
    rewrite (@scan_refs_line lr _ _ _ refs Hr1 Hr2 Hr3).
    apply scan_plain; assumption.
Qed.

Lemma replace_comma_chars (tok : string) :
  chars (replace "," "" tok) =
  filter (fun c => negb (Ascii.eqb c ",")) (chars tok).
Proof.
  induction tok as [|c tok IH]; simpl; [reflexivity|].
  destruct (Ascii.eqb c ","); simpl; [exact IH | f_equal; exact IH].
Qed.

Lemma counter_of_token (line tok : string) (v : Z) :
  index (split_ws line) 3 = Ok tok -> int (replace "," "" tok) = Ok v ->
  counter line = Ok v.
Proof. intros H1 H2. unfold counter. rewrite H1. exact H2. Qed.

(* ================================================================== *)
(** * C1: reading the two counters *)
(* ================================================================== *)

Lemma execute_measure
      (valgrind : string -> Z -> Z -> option Z -> Z -> string)
      (args : OldRun.Args) (stderr : string) :
  OldRun.simulation valgrind args = stderr ->
  OldRun.execute valgrind args = OldRun.measure args stderr.
Proof. intros <-. reflexivity. Qed.

Lemma run_valgrind_measure
      (cachegrind : Ordered.Binary -> Z -> Z -> Z -> string)
      (exe : Ordered.Binary) (cache_size block_size a : Z)
      (assoc : option Z) (stderr : string) :
  Ordered.resolve_assoc cache_size block_size assoc = Ok a ->
  cachegrind exe cache_size a block_size = stderr ->
  Ordered.run_valgrind cachegrind exe cache_size block_size assoc
  = Ordered.measure stderr.
Proof.
  intros Ha <-. unfold Ordered.run_valgrind. rewrite Ha. reflexivity.
Qed.

(** C1, as amended.  Let the simulator print a stream with one reference
    line and one miss line, in either order, among lines that carry neither
    label.  The reference line carries the label "D refs"; the miss line
    carries the label "D1  misses", spelt with two spaces.  On each of the
    two the number is the fourth white-space token with its commas removed.
    Then [run_valgrind] returns misses / references, and [execute] returns
    (misses - cold-miss estimate) / references; the sentinel [0] stands for
    a zero reference count.  For 200 misses and 1,000 references the ratio
    is 1/5. *)
Theorem C1_fourth_token_ratio :
  forall (valgrind : string -> Z -> Z -> option Z -> Z -> string)
         (cachegrind : Ordered.Binary -> Z -> Z -> Z -> string)
         (args : OldRun.Args) (exe : Ordered.Binary)
         (cache_size block_size a : Z) (assoc : option Z)
         (pre mid post : list string) (lr lm tr tm : string)
         (refs misses : Z) (c : Q) (stream : string),
    forallb plain (pre ++ mid ++ post) = true ->
    forallb one_line (pre ++ lr :: mid ++ lm :: post) = true ->
    contains "D1  misses" lr = false -> contains "D refs" lr = true ->
    contains "D1  misses" lm = true ->
    index (split_ws lr) 3 = Ok tr -> int (replace "," "" tr) = Ok refs ->
    index (split_ws lm) 3 = Ok tm -> int (replace "," "" tm) = Ok misses ->
    stream = unlines (pre ++ lr :: mid ++ lm :: post) \/
    stream = unlines (pre ++ lm :: mid ++ lr :: post) ->
    OldRun.cold_miss args = Ok c ->
    OldRun.simulation valgrind args = stream ->
    Ordered.resolve_assoc cache_size block_size assoc = Ok a ->
    cachegrind exe cache_size a block_size = stream ->
    Ordered.run_valgrind cachegrind exe cache_size block_size assoc
    = Ok (ratio misses 0 refs) /\
    OldRun.execute valgrind args = Ok (ratio misses c refs) /\
    chars (replace "," "" tr) =
      filter (fun ch => negb (Ascii.eqb ch ",")) (chars tr) /\
    ratio 200 0 1000 = VFloat (1 # 5).
Proof.
  intros valgrind cachegrind args exe cache_size block_size a assoc
         pre mid post lr lm tr tm refs misses c stream
         Hplain Hone Hr1 Hr2 Hm1 Hir Hnr Him Hnm Hs Hc Hsim Ha Hcg.
  assert (Hrl : refs_line lr refs)
    by (repeat split; auto; eapply counter_of_token; eassumption).
  assert (Hml : miss_line lm misses)
    by (split; auto; eapply counter_of_token; eassumption).
  destruct (scan_two_lines pre mid post Hplain Hrl Hml) as [S1 S2].
  assert (Hone' : forallb one_line (pre ++ lm :: mid ++ lr :: post) = true).
  { rewrite forallb_app in Hone |- *. simpl in Hone |- *.
    rewrite forallb_app in Hone |- *. simpl in Hone |- *.
    destruct (forallb one_line pre), (one_line lr), (forallb one_line mid),
      (one_line lm), (forallb one_line post); simpl in *; congruence. }
  assert (Hscan : scan (stream_lines stream) 0 0 = Ok (misses, refs)).
  { destruct Hs as [-> | ->];
      rewrite stream_lines_unlines; auto;
      destruct pre; discriminate. }
  repeat split.
  - rewrite (run_valgrind_measure _ _ _ _ _ Ha Hcg).
    apply ordered_measure_of_scan; assumption.
  - rewrite (execute_measure _ _ Hsim).
    apply oldrun_measure_of_scan; assumption.
  - apply replace_comma_chars.
Qed.

(** The theorem C1 at the stream of the two lines as the simulator prints
    them: the result is 1/5. *)
Lemma C1_witness :
  index (split_ws "==1== D refs: 1,000") 3 = Ok "1,000" /\
  index (split_ws "==1== D1  misses: 200") 3 = Ok "200" /\
  Ordered.run_valgrind (const_cachegrind (summary "1,000" "200"))
                       default_binary 1024 32 None
  = Ok (VFloat (1 # 5)) /\
  OldRun.execute (const_valgrind (summary "1,000" "200")) default_args
  = Ok (VFloat (1 # 5)).
Proof.
  pose proof (@C1_fourth_token_ratio
                (const_valgrind (summary "1,000" "200"))
                (const_cachegrind (summary "1,000" "200"))
                default_args default_binary 1024 32 32 None [] [] []
                "==1== D refs: 1,000" "==1== D1  misses: 200" "1,000" "200"
                1000 200 0%Q (summary "1,000" "200")
                eq_refl eq_refl eq_refl eq_refl eq_refl
                eq_refl eq_refl eq_refl eq_refl (or_introl eq_refl)
                eq_refl eq_refl eq_refl eq_refl) as H.
  split; [reflexivity|]. split; [reflexivity|].
  split; [exact (proj1 H) | exact (proj1 (proj2 H))].
Defined.

(** C1 as stated fails.  On the two lines as the specification writes
    them the number is the third token of the reference line, and reading
    the fourth raises [IndexError]; with a leading token, the miss label
    spelt with one space is not recognised and the result is 0, not 1/5. *)
Lemma C1_literal_lines :
  Ordered.run_valgrind
    (const_cachegrind (unlines ["D refs: 1,000"; "D1 misses: 200"]))
    default_binary 1024 32 None
  = Raise IndexError /\
  OldRun.execute
    (const_valgrind (unlines ["D refs: 1,000"; "D1 misses: 200"]))
    default_args
  = Raise IndexError /\
  Ordered.run_valgrind
    (const_cachegrind
       (unlines ["==1== D refs: 1,000"; "==1== D1 misses: 200"]))
    default_binary 1024 32 None
  = Ok (VFloat 0) /\
  OldRun.execute
    (const_valgrind (unlines ["==1== D refs: 1,000"; "==1== D1 misses: 200"]))
    default_args
  = Ok (VFloat 0).
Proof. repeat split; vm_compute; reflexivity. Qed.

(* ================================================================== *)
(** * C2: the cold-miss estimate *)
(* ================================================================== *)

Lemma Qred_eq (q : Q) : (Qred q == q)%Q.
Proof. apply Qred_correct. Qed.

(** C2, as amended.  With cold-miss removal enabled and a non-zero block
    size [b], the estimate for the dimension [n] is the exact quotient
    3*n*n/b, not truncated to an integer; [execute] returns
    (misses - estimate) / references whenever the reference count is not
    zero, with no clamping; for n = 16 and b = 32 the estimate is 24. *)
Theorem C2_cold_miss_exact_quotient :
  forall (valgrind : string -> Z -> Z -> option Z -> Z -> string)
         (args : OldRun.Args),
    OldRun.remove_cold args = true -> OldRun.block args <> 0 ->
    exists c : Q,
      OldRun.cold_miss args = Ok c /\
      (c == inject_Z (3 * OldRun.size args * OldRun.size args)
            / inject_Z (OldRun.block args))%Q /\
      (forall (m r : Z),
          scan (stream_lines (OldRun.simulation valgrind args)) 0 0
          = Ok (m, r) ->
          r <> 0 ->
          exists q : Q,
            OldRun.execute valgrind args = Ok (VFloat q) /\
            (q == (inject_Z m - c) / inject_Z r)%Q) /\
      (OldRun.size args = 16 -> OldRun.block args = 32 -> c = inject_Z 24).
Proof.
  intros valgrind args Hcold Hb.
  eexists. split; [apply cold_miss_enabled; assumption|].
  split; [|split].
  - rewrite Qred_eq.
    replace (3 * OldRun.size args * OldRun.size args)
      with (OldRun.size args * OldRun.size args * 3) by ring.
    reflexivity.
  - intros m r Hs Hr.
    eexists. split.
    + rewrite (execute_measure _ _ eq_refl).
      rewrite (oldrun_measure_of_scan _ _ (cold_miss_enabled _ Hcold Hb) Hs).
      unfold ratio. destruct (Z.eqb_spec r 0); [contradiction | reflexivity].
    + apply Qred_eq.
  - intros Hn Hblk. rewrite Hn, Hblk. reflexivity.
Qed.

(** The theorem C2 at n = 16, b = 32 and a summary of 1,000 references and
    10 misses: the estimate is 24 and the ratio (10 - 24) / 1000. *)
Lemma C2_witness :
  OldRun.cold_miss (cold_args 16 32) = Ok (inject_Z 24) /\
  exists q,
    OldRun.execute (const_valgrind (summary "1,000" "10")) (cold_args 16 32)
    = Ok (VFloat q) /\
    (q == (inject_Z 10 - inject_Z 24) / inject_Z 1000)%Q.
Proof.
  destruct (@C2_cold_miss_exact_quotient
              (const_valgrind (summary "1,000" "10")) (cold_args 16 32)
              eq_refl)
    as (c & Hc & _ & Hm & H24); [discriminate|].
  pose proof (H24 eq_refl eq_refl) as E. subst c.
  split; [exact Hc|].
  apply (Hm 10 1000); [reflexivity | discriminate].
Defined.

(** C2 as stated fails: for n = 3 and b = 32 the estimate is 27/32, where
    truncation gives 0, and the ratio for 1,000 references and 10 misses is
    293/32000, where the truncated estimate gives 1/100. *)
Lemma C2_estimate_not_truncated :
  OldRun.cold_miss (cold_args 3 32) = Ok (27 # 32) /\
  ~ (27 # 32 == inject_Z (3 * 3 * 3 / 32))%Q /\
  OldRun.execute (const_valgrind (summary "1,000" "10")) (cold_args 3 32)
  = Ok (VFloat (293 # 32000)) /\
  ~ (293 # 32000 == (inject_Z 10 - inject_Z (3 * 3 * 3 / 32)) / inject_Z 1000)%Q.
Proof.
  split; [vm_compute; reflexivity|].
  split; [intros H; vm_compute in H; discriminate|].
  split; [vm_compute; reflexivity|].
  intros H; vm_compute in H; discriminate.
Qed.

(* ================================================================== *)
(** * C3: range of the returned value *)
(* ================================================================== *)

Lemma inject_Z_pos (r : Z) : 0 < r -> (0 < inject_Z r)%Q.
Proof. intros H. change 0%Q with (inject_Z 0). rewrite <- Zlt_Qlt. exact H. Qed.

Lemma ratio_zero_refs (m : Z) (c : Q) : ratio m c 0 = VInt 0.
Proof. reflexivity. Qed.

Lemma ratio_le_1 (m r : Z) (c : Q) :
  0 <= m <= r -> (0 <= c)%Q -> (value_Q (ratio m c r) <= 1)%Q.
Proof.
  intros Hm Hc. unfold ratio.
  destruct (Z.eqb_spec r 0) as [->|Hr]; cbv beta iota delta [value_Q].
  - discriminate.
  - rewrite Qred_eq.
    assert (Hpos : (0 < inject_Z r)%Q) by (apply inject_Z_pos; lia).
    apply Qle_shift_div_r; [exact Hpos|].
    assert (Hle : (inject_Z m <= inject_Z r)%Q) by (rewrite <- Zle_Qle; lia).
    lra.
Qed.

Lemma ratio_ge_0 (m r : Z) :
  0 <= m <= r -> (0 <= value_Q (ratio m 0 r))%Q.
Proof.
  intros Hm. unfold ratio.
  destruct (Z.eqb_spec r 0) as [->|Hr]; cbv beta iota delta [value_Q].
  - discriminate.
  - rewrite Qred_eq.
    assert (Hpos : (0 < inject_Z r)%Q) by (apply inject_Z_pos; lia).
    apply Qle_shift_div_l; [exact Hpos|].
    assert (Hge : (inject_Z 0 <= inject_Z m)%Q) by (rewrite <- Zle_Qle; lia).
    change (inject_Z 0) with 0%Q in Hge. lra.
Qed.

Lemma cold_miss_nonneg (args : OldRun.Args) :
  0 < OldRun.block args ->
  exists c, OldRun.cold_miss args = Ok c /\ (0 <= c)%Q.
Proof.
  intros Hb. unfold OldRun.cold_miss.
  destruct (OldRun.remove_cold args).
  - rewrite truediv_inject_Z by lia.
    eexists; split; [reflexivity|].
    rewrite Qred_eq.
    apply Qle_shift_div_l; [apply inject_Z_pos; exact Hb|].
    rewrite Qmult_0_l. change 0%Q with (inject_Z 0).
    rewrite <- Zle_Qle. nia.
  - exists (inject_Z 0). split; [reflexivity | discriminate].
Qed.

(** C3, as amended.  Let the scan read the counters [m] (misses) and [r]
    (references) with 0 <= m <= r.  Then [run_valgrind], and [execute] with
    cold-miss removal disabled, return a rational in [0,1], which is the
    sentinel [0] when [r] is zero; with cold-miss removal enabled and a
    positive block size [execute] returns a value that is at most 1 and may
    be negative. *)
Theorem C3_ratio_range :
  forall (m r : Z), 0 <= m <= r ->
    (forall (cachegrind : Ordered.Binary -> Z -> Z -> Z -> string)
            (exe : Ordered.Binary) (cache_size block_size a : Z)
            (assoc : option Z),
        Ordered.resolve_assoc cache_size block_size assoc = Ok a ->
        scan (stream_lines (cachegrind exe cache_size a block_size)) 0 0
        = Ok (m, r) ->
        exists v,
          Ordered.run_valgrind cachegrind exe cache_size block_size assoc
          = Ok v /\ in_unit (value_Q v) /\ (r = 0 -> v = VInt 0)) /\
    (forall (valgrind : string -> Z -> Z -> option Z -> Z -> string)
            (args : OldRun.Args),
        scan (stream_lines (OldRun.simulation valgrind args)) 0 0
        = Ok (m, r) ->
        (OldRun.remove_cold args = false ->
         exists v, OldRun.execute valgrind args = Ok v /\
                   in_unit (value_Q v) /\ (r = 0 -> v = VInt 0)) /\
        (0 < OldRun.block args ->
         exists v, OldRun.execute valgrind args = Ok v /\
                   (value_Q v <= 1)%Q /\ (r = 0 -> v = VInt 0))).
Proof.
  intros m r Hm. split.
  - intros cachegrind exe cache_size block_size a assoc Ha Hs.
    exists (ratio m 0 r). split; [|split].
    + unfold Ordered.run_valgrind. rewrite Ha. simpl bind.
      apply ordered_measure_of_scan; exact Hs.
    + split; [apply ratio_ge_0; exact Hm | apply ratio_le_1; [exact Hm|]].
      discriminate.
    + intros ->. reflexivity.
  - intros valgrind args Hs. split.
    + intros Hcold. exists (ratio m 0 r). split; [|split].
      * unfold OldRun.execute.
        apply oldrun_measure_of_scan;
          [apply cold_miss_disabled; exact Hcold | exact Hs].
      * split; [apply ratio_ge_0; exact Hm | apply ratio_le_1; [exact Hm|]].
        discriminate.
      * intros ->. reflexivity.
    + intros Hb. destruct (cold_miss_nonneg args Hb) as (c & Hc & Hc0).
      exists (ratio m c r). split; [|split].
      * unfold OldRun.execute. apply oldrun_measure_of_scan; assumption.
      * apply ratio_le_1; assumption.
      * intros ->. reflexivity.
Qed.

(** The theorem C3 at 200 misses out of 1,000 references. *)
Lemma C3_witness :
  0 <= 200 <= 1000 /\
  (exists v,
      Ordered.run_valgrind (const_cachegrind (summary "1,000" "200"))
                           default_binary 1024 32 None = Ok v /\
      in_unit (value_Q v)) /\
  (exists v,
      OldRun.execute (const_valgrind (summary "1,000" "200")) default_args
      = Ok v /\ in_unit (value_Q v)) /\
  (exists v,
      OldRun.execute (const_valgrind (summary "1,000" "200")) (cold_args 16 32)
      = Ok v /\ (value_Q v <= 1)%Q).
Proof.
  assert (Hm : 0 <= 200 <= 1000) by lia.
  destruct (@C3_ratio_range 200 1000 Hm) as [Hord Hold].
  split; [exact Hm|]. split; [|split].
  - destruct (Hord (const_cachegrind (summary "1,000" "200"))
                   default_binary 1024 32 32 None eq_refl eq_refl)
      as (v & Hv & Hu & _).
    exists v; split; assumption.
  - destruct (Hold (const_valgrind (summary "1,000" "200")) default_args
                   eq_refl) as [H _].
    destruct (H eq_refl) as (v & Hv & Hu & _).
    exists v; split; assumption.
  - destruct (Hold (const_valgrind (summary "1,000" "200")) (cold_args 16 32)
                   eq_refl) as [_ H].
    destruct (H eq_refl) as (v & Hv & Hu & _).
    exists v; split; assumption.
Defined.

(** C3 as stated fails.  With cold-miss removal enabled, dimension 16 and
    block size 32, a run with 1,000 references and 10 misses returns
    (10 - 24) / 1000 = -7/500, below 0.  The scan also takes the counters as
    it reads them: a summary with 1 reference and 2 misses returns 2. *)
Lemma C3_negative_ratio :
  OldRun.execute (const_valgrind (summary "1,000" "10")) (cold_args 16 32)
  = Ok (VFloat (-7 # 500)) /\
  ~ in_unit (value_Q (VFloat (-7 # 500))) /\
  Ordered.run_valgrind (const_cachegrind (summary "1" "2"))
                       default_binary 1024 32 None
  = Ok (VFloat (2 # 1)) /\
  ~ in_unit (value_Q (VFloat (2 # 1))).
Proof.
  split; [vm_compute; reflexivity|].
  split; [intros [H _]; vm_compute in H; apply H; reflexivity|].
  split; [vm_compute; reflexivity|].
  intros [_ H]; vm_compute in H; apply H; reflexivity.
Qed.

(* ================================================================== *)
(** * C4: no reference line *)
(* ================================================================== *)

Lemma ordered_measure_no_division (stderr : string) :
  Ordered.measure stderr <> Raise ZeroDivisionError.
Proof.
  unfold Ordered.measure.
  destruct (scan (stream_lines stderr) 0 0) as [[m r]|e] eqn:E;
    cbv beta iota delta [bind].
  - destruct (Z.eqb_spec r 0); [discriminate|].
    rewrite truediv_inject_Z by assumption. discriminate.
  - intros H; apply (@scan_no_division (stream_lines stderr) 0 0); congruence.
Qed.

Lemma oldrun_measure_no_division (args : OldRun.Args) (stderr : string) :
  OldRun.remove_cold args = false \/ OldRun.block args <> 0 ->
  OldRun.measure args stderr <> Raise ZeroDivisionError.
Proof.
  intros Hargs. unfold OldRun.measure.
  assert (Hc : exists c, OldRun.cold_miss args = Ok c).
  { destruct (OldRun.remove_cold args) eqn:Hcold.
    - destruct Hargs as [?|Hb]; [discriminate|].
      eexists; apply cold_miss_enabled; assumption.
    - eexists; apply cold_miss_disabled; assumption. }
  destruct Hc as [c ->]. cbv beta iota delta [bind].
  destruct (scan (stream_lines stderr) 0 0) as [[m r]|e] eqn:E;
    cbv beta iota delta [bind].
  - destruct (Z.eqb_spec r 0); [discriminate|].
    rewrite truediv_inject_Z by assumption. discriminate.
  - intros H; apply (@scan_no_division (stream_lines stderr) 0 0); congruence.
Qed.

(** C4, as amended.  Let the simulator print a stream of which no line
    contains "D refs" and of which the scan reads every line that contains
    "D1  misses" without raising.  Then [run_valgrind] returns exactly the
    int [0], and so does [execute], provided cold-miss removal is disabled
    or the block size is not zero.  Under that proviso, and for every
    stream, neither raises a division error once the simulator has run. *)
Theorem C4_no_reference_line :
  forall (valgrind : string -> Z -> Z -> option Z -> Z -> string)
         (cachegrind : Ordered.Binary -> Z -> Z -> Z -> string)
         (args : OldRun.Args) (exe : Ordered.Binary)
         (cache_size block_size a : Z) (assoc : option Z) (stderr : string),
    OldRun.remove_cold args = false \/ OldRun.block args <> 0 ->
    OldRun.simulation valgrind args = stderr ->
    Ordered.resolve_assoc cache_size block_size assoc = Ok a ->
    cachegrind exe cache_size a block_size = stderr ->
    Ordered.run_valgrind cachegrind exe cache_size block_size assoc
    <> Raise ZeroDivisionError /\
    OldRun.execute valgrind args <> Raise ZeroDivisionError /\
    (forallb (fun l => negb (contains "D refs" l)) (stream_lines stderr)
     = true ->
     forallb readable (stream_lines stderr) = true ->
     Ordered.run_valgrind cachegrind exe cache_size block_size assoc
     = Ok (VInt 0) /\
     OldRun.execute valgrind args = Ok (VInt 0)).
Proof.
  intros valgrind cachegrind args exe cache_size block_size a assoc stderr
         Hargs Hsim Ha Hcg.
  rewrite (run_valgrind_measure _ _ _ _ _ Ha Hcg).
  rewrite (execute_measure _ _ Hsim).
  split; [apply ordered_measure_no_division|].
  split; [apply oldrun_measure_no_division; exact Hargs|].
  intros Hnone Hread.
  destruct (@scan_no_refs (stream_lines stderr) 0 0 Hnone Hread) as [m Hs].
  split.
  - rewrite (ordered_measure_of_scan _ Hs). reflexivity.
  - assert (Hc : exists c, OldRun.cold_miss args = Ok c).
    { destruct (OldRun.remove_cold args) eqn:Hcold.
      - destruct Hargs as [?|Hb]; [discriminate|].
        eexists; apply cold_miss_enabled; assumption.
      - eexists; apply cold_miss_disabled; assumption. }
    destruct Hc as [c Hc].
    rewrite (oldrun_measure_of_scan _ _ Hc Hs). reflexivity.
Qed.

(** The theorem C4 at a stream that holds an error message and a miss line
    only. *)
Lemma C4_witness :
  Ordered.run_valgrind (const_cachegrind failed_run) default_binary
                       1024 32 None
  = Ok (VInt 0) /\
  OldRun.execute (const_valgrind failed_run) (cold_args 16 32)
  = Ok (VInt 0).
Proof.
  destruct (@C4_no_reference_line
              (const_valgrind failed_run) (const_cachegrind failed_run)
              (cold_args 16 32) default_binary 1024 32 32 None failed_run)
    as (_ & _ & H).
  - right. discriminate.
  - reflexivity.
  - reflexivity.
  - reflexivity.
  - apply H; reflexivity.
Defined.

(** C4 as stated fails.  With cold-miss removal enabled and a block size of
    zero, [execute] raises a division error on the estimate before it reads
    the stream, here an empty one; and a miss line with fewer than four
    tokens makes the scan raise although no reference line is present. *)
Lemma C4_division_error :
  OldRun.execute (const_valgrind "") (cold_args 16 0)
  = Raise ZeroDivisionError /\
  forallb (fun l => negb (contains "D refs" l)) (stream_lines "D1  misses")
  = true /\
  Ordered.run_valgrind (const_cachegrind "D1  misses") default_binary
                       1024 32 None
  = Raise IndexError /\
  OldRun.execute (const_valgrind "D1  misses") default_args
  = Raise IndexError.
Proof. repeat split; vm_compute; reflexivity. Qed.

(* ================================================================== *)
(** * C5: the default associativity *)
(* ================================================================== *)

Lemma floordiv_ok (a b : Z) : b <> 0 -> floordiv a b = Ok (a / b).
Proof.
  intros Hb. unfold floordiv.
  destruct (Z.eqb_spec b 0); [contradiction | reflexivity].
Qed.



(* ================================================================== *)
(** * C6: enumeration of the loop orders *)
(* ================================================================== *)

Lemma NoDup_three {A : Type} (x y z : A) :
  NoDup [x; y; z] -> x <> y /\ x <> z /\ y <> z.
Proof.
  intros H. inversion H as [|? ? Hx Hyz]; subst.
  inversion Hyz as [|? ? Hy Hz]; subst.
  simpl in Hx, Hy. intuition.
Qed.

Lemma order_generator_value :
  Ordered.order_generator
  = Ok [["I_LOOP"; "J_LOOP"; "K_LOOP"]; ["I_LOOP"; "K_LOOP"; "J_LOOP"];
        ["J_LOOP"; "I_LOOP"; "K_LOOP"]; ["J_LOOP"; "K_LOOP"; "I_LOOP"];
        ["K_LOOP"; "I_LOOP"; "J_LOOP"]; ["K_LOOP"; "J_LOOP"; "I_LOOP"]].
Proof. vm_compute. reflexivity. Qed.

Lemma orders_NoDup : NoDup Ordered.orders.
Proof.
  unfold Ordered.orders.
  repeat constructor; simpl; intuition discriminate.
Qed.

(** C6.  [order_generator] yields six triples, no triple twice, and the
    triples it yields are exactly the permutations of the three loop macros;
    in particular no yielded triple repeats a macro. *)
Theorem C6_order_generator_permutations :
  exists l : list (list string),
    Ordered.order_generator = Ok l /\
    List.length l = 6%nat /\
    NoDup l /\
    (forall o, In o l <-> Permutation Ordered.orders o) /\
    (forall o, In o l -> NoDup o /\ List.length o = 3%nat).
Proof.
  eexists. split; [apply order_generator_value|].
  split; [reflexivity|].
  split.
  { repeat constructor; simpl; intuition discriminate. }
  assert (Hiff : forall o,
    In o [["I_LOOP"; "J_LOOP"; "K_LOOP"]; ["I_LOOP"; "K_LOOP"; "J_LOOP"];
          ["J_LOOP"; "I_LOOP"; "K_LOOP"]; ["J_LOOP"; "K_LOOP"; "I_LOOP"];
          ["K_LOOP"; "I_LOOP"; "J_LOOP"]; ["K_LOOP"; "J_LOOP"; "I_LOOP"]]
    <-> Permutation Ordered.orders o).
  { intros o. unfold Ordered.orders. split.
    - simpl. intros [<-|[<-|[<-|[<-|[<-|[<-|[]]]]]]].
      + apply Permutation_refl.
      + apply perm_skip, perm_swap.
      + apply perm_swap.
      + eapply perm_trans; [apply perm_swap | apply perm_skip, perm_swap].
      + eapply perm_trans; [apply perm_skip, perm_swap | apply perm_swap].
      + eapply perm_trans; [apply perm_swap|].
        eapply perm_trans; [apply perm_skip, perm_swap | apply perm_swap].
    - intros Hp.
      pose proof (Permutation_length Hp) as Hlen.
      destruct o as [|x [|y [|z [|w o]]]]; try discriminate Hlen.
      pose proof (Permutation_NoDup Hp orders_NoDup) as Hnd.
      apply NoDup_three in Hnd as (Hxy & Hxz & Hyz).
      assert (Hx : In x ["I_LOOP"; "J_LOOP"; "K_LOOP"])
        by (eapply Permutation_in; [apply Permutation_sym; exact Hp|];
            simpl; auto).
      assert (Hy : In y ["I_LOOP"; "J_LOOP"; "K_LOOP"])
        by (eapply Permutation_in; [apply Permutation_sym; exact Hp|];
            simpl; auto).
      assert (Hz : In z ["I_LOOP"; "J_LOOP"; "K_LOOP"])
        by (eapply Permutation_in; [apply Permutation_sym; exact Hp|];
            simpl; auto).
      simpl in Hx, Hy, Hz.
      destruct Hx as [<-|[<-|[<-|[]]]];
        destruct Hy as [<-|[<-|[<-|[]]]];
        destruct Hz as [<-|[<-|[<-|[]]]];
        first [ exfalso; apply Hxy; reflexivity
              | exfalso; apply Hxz; reflexivity
              | exfalso; apply Hyz; reflexivity
              | simpl; auto 10 ]. }
  split; [exact Hiff|].
  intros o Ho. apply Hiff in Ho. split.
  - exact (Permutation_NoDup Ho orders_NoDup).
  - rewrite <- (Permutation_length Ho). reflexivity.
Qed.

(* ================================================================== *)
(** * C9: names and orders *)
(* ================================================================== *)

Lemma loop_letter_cases (c : ascii) :
  loop_letter c = true -> c = "I"%char \/ c = "J"%char \/ c = "K"%char.
Proof.
  unfold loop_letter. intros H.
  apply orb_true_iff in H as [H|H]; [apply orb_true_iff in H as [H|H]|];
    apply Ascii.eqb_eq in H; auto.
Qed.

Lemma letter_to_macro (c : ascii) :
  loop_letter c = true ->
  (k <- str_index "IJK" c ;; index Ordered.orders k)
  = Ok (String c "_LOOP").
Proof.
  intros H. destruct (loop_letter_cases c H) as [->|[->| ->]]; reflexivity.
Qed.

Lemma macro_to_letter (c : ascii) :
  loop_letter c = true ->
  index (split_on "_" (String c "_LOOP")) 0 = Ok (String c "").
Proof.
  intros H. destruct (loop_letter_cases c H) as [->|[->| ->]]; reflexivity.
Qed.

Lemma chars_length (s : string) : List.length (chars s) = String.length s.
Proof. induction s as [|c s IH]; simpl; [reflexivity | f_equal; exact IH]. Qed.

(** The round trip for a name of any length. *)
Lemma name_order_name (s : string) :
  forallb loop_letter (chars s) = true ->
  exists o,
    Ordered.name_to_order s = Ok o /\
    Ordered.order_to_name o = Ok s /\
    List.length o = String.length s.
Proof.
  unfold Ordered.name_to_order, Ordered.order_to_name.
  induction s as [|c s IH]; intros H.
  - exists []. repeat split.
  - simpl in H. apply andb_true_iff in H as [Hc Hs].
    destruct (IH Hs) as (o & Ho & Hname & Hlen).
    exists (String c "_LOOP" :: o).
    destruct (mapM (fun i => index (split_on "_" i) 0) o) as [parts|e] eqn:Hp;
      [|discriminate Hname].
    simpl in Hname. injection Hname as Hjoin.
    split; [|split].
    + cbn [chars mapM]. rewrite (letter_to_macro c Hc), Ho. reflexivity.
    + cbn [mapM]. rewrite (macro_to_letter c Hc), Hp.
      cbv beta iota delta [bind]. unfold join in *. cbn [fold_right].
      rewrite Hjoin. reflexivity.
    + simpl. f_equal. exact Hlen.
Qed.

(** C9.  For a name of three letters among I, J and K, [name_to_order]
    returns a triple of loop macros and [order_to_name] maps that triple
    back to the name. *)
Theorem C9_name_round_trip :
  forall s : string,
    String.length s = 3%nat ->
    forallb loop_letter (chars s) = true ->
    (o <- Ordered.name_to_order s ;; Ordered.order_to_name o) = Ok s /\
    exists o, Ordered.name_to_order s = Ok o /\ List.length o = 3%nat.
Proof.
  intros s Hlen Hs.
  destruct (name_order_name s Hs) as (o & Ho & Hname & Hl).
  split.
  - rewrite Ho. exact Hname.
  - exists o. split; [exact Ho | congruence].
Qed.

(** The theorem C9 at the name "KIJ". *)
Lemma C9_witness :
  (o <- Ordered.name_to_order "KIJ" ;; Ordered.order_to_name o) = Ok "KIJ".
Proof. exact (proj1 (@C9_name_round_trip "KIJ" eq_refl eq_refl)). Defined.

(* ================================================================== *)
(** * Ranges and dictionaries *)
(* ================================================================== *)

Lemma range_list_NoDup (start stop step : Z) :
  step <> 0 -> NoDup (range_list start stop step).
Proof.
  intros Hs. unfold range_list.
  apply Injective_map_NoDup; [|apply seq_NoDup].
  intros a b H. nia.
Qed.

Lemma map_seq_sorted (f : nat -> Z) (a n : nat) :
  (forall i j, (i < j)%nat -> f i < f j) ->
  StronglySorted Z.lt (List.map f (seq a n)).
Proof.
  intros Hf. revert a; induction n as [|n IH]; intros a; simpl.
  - constructor.
  - constructor; [apply IH|].
    apply Forall_forall. intros y Hy.
    apply in_map_iff in Hy as (j & <- & Hj).
    apply in_seq in Hj. apply Hf. lia.
Qed.

Lemma range_list_ascending (start stop step : Z) :
  0 < step -> StronglySorted Z.lt (range_list start stop step).
Proof.
  intros Hs. unfold range_list. apply map_seq_sorted.
  intros i j Hij. nia.
Qed.

Lemma range_list_descending (start stop step : Z) :
  step < 0 -> StronglySorted Z.gt (range_list start stop step).
Proof.
  intros Hs. unfold range_list.
  generalize (range_len start stop step) as n.
  generalize 0%nat as a.
  intros a n; revert a; induction n as [|n IH]; intros a; simpl.
  - constructor.
  - constructor; [apply IH|].
    apply Forall_forall. intros y Hy.
    apply in_map_iff in Hy as (j & <- & Hj).
    apply in_seq in Hj. nia.
Qed.

Lemma dict_set_fresh {V : Type} (k : Z) (v : V) (d : list (Z * V)) :
  ~ In k (keys d) -> dict_set k v d = d ++ [(k, v)].
Proof.
  induction d as [|[k' v'] d IH]; simpl; intros H; [reflexivity|].
  destruct (Z.eqb_spec k' k) as [->|Hne]; [exfalso; apply H; left; reflexivity|].
  f_equal. apply IH. intros Hin; apply H; right; exact Hin.
Qed.

Lemma keys_app {V : Type} (d1 d2 : list (Z * V)) :
  keys (d1 ++ d2) = keys d1 ++ keys d2.
Proof. unfold keys. apply map_app. Qed.

(* ================================================================== *)
(** * The sweep of src/old/run.py *)
(* ================================================================== *)

Section OldSweep.

Variable valgrind : string -> Z -> Z -> option Z -> Z -> string.
Variable args : OldRun.Args.

Local Abbreviation mk := (sweep_task valgrind args).
Local Abbreviation aw := sweep_await.

Lemma mk_key (i : Z) (t : Z * result value) : mk i = Ok t -> fst t = i.
Proof.
  unfold sweep_task. destruct (OldRun.unit_args args i); simpl; intros H;
    inversion H; reflexivity.
Qed.

Lemma mapM_mk_keys (ks : list Z) (ts : list (Z * result value)) :
  mapM mk ks = Ok ts -> keys ts = ks.
Proof.
  intros H. apply mapM_ok_Forall2 in H.
  induction H as [|k t ks ts Hk _ IH]; simpl; [reflexivity|].
  rewrite (mk_key _ Hk), IH. reflexivity.
Qed.

Lemma make_tasks_spec (ks : list Z) (acc : list (Z * result value)) :
  NoDup ks -> (forall k, In k ks -> ~ In k (keys acc)) ->
  OldRun.make_tasks valgrind args ks acc
  = bind (mapM mk ks) (fun ts => Ok (acc ++ ts)).
Proof.
  revert acc; induction ks as [|k ks IH]; intros acc Hnd Hfresh; simpl.
  - rewrite app_nil_r. reflexivity.
  - inversion Hnd as [|? ? Hk Hnd']; subst.
    unfold sweep_task at 1.
    destruct (OldRun.unit_args args k) as [a|e]; simpl; [|reflexivity].
    rewrite dict_set_fresh by (apply Hfresh; left; reflexivity).
    rewrite IH.
    + destruct (mapM mk ks) as [ts|e]; simpl; [|reflexivity].
      rewrite <- app_assoc. reflexivity.
    + exact Hnd'.
    + intros k' Hk'. rewrite keys_app. simpl. intros Hin.
      apply in_app_or in Hin as [Hin|[->|[]]].
      * apply (Hfresh k'); [right; exact Hk' | exact Hin].
      * contradiction.
Qed.

Lemma await_all_spec (tasks : list (Z * result value))
      (res : list (Z * value)) :
  NoDup (keys tasks) -> (forall k, In k (keys tasks) -> ~ In k (keys res)) ->
  OldRun.await_all tasks res
  = bind (mapM aw tasks) (fun rs => Ok (res ++ rs)).
Proof.
  revert res; induction tasks as [|[k t] tasks IH]; intros res Hnd Hfresh;
    simpl.
  - rewrite app_nil_r. reflexivity.
  - inversion Hnd as [|? ? Hk Hnd']; subst.
    unfold sweep_await at 1. simpl.
    destruct t as [r|e]; simpl; [|reflexivity].
    rewrite dict_set_fresh by (apply Hfresh; left; reflexivity).
    rewrite IH.
    + destruct (mapM aw tasks) as [rs|e]; simpl; [|reflexivity].
      rewrite <- app_assoc. reflexivity.
    + exact Hnd'.
    + intros k' Hk'. rewrite keys_app. simpl. intros Hin.
      apply in_app_or in Hin as [Hin|[->|[]]].
      * apply (Hfresh k'); [right; exact Hk' | exact Hin].
      * contradiction.
Qed.

(** [batch_execute] without the dictionaries: the keys of a range are
    distinct, so each insertion appends. *)
Lemma batch_execute_spec :
  OldRun.batch_step args <> 0 ->
  OldRun.batch_execute valgrind args
  = bind (mapM mk (range_list (OldRun.batch_start args)
                              (OldRun.batch_end args + 1)
                              (OldRun.batch_step args)))
         (mapM aw).
Proof.
  intros Hstep. unfold OldRun.batch_execute, range.
  destruct (Z.eqb_spec (OldRun.batch_step args) 0); [contradiction|].
  cbv beta iota delta [bind].
  rewrite make_tasks_spec;
    [| apply range_list_NoDup; exact Hstep | intros k _ []].
  destruct (mapM mk _) as [ts|e] eqn:Hts; simpl; [|reflexivity].
  rewrite await_all_spec.
  - destruct (mapM aw ts); reflexivity.
  - rewrite (mapM_mk_keys _ Hts). apply range_list_NoDup; exact Hstep.
  - intros k _ [].
Qed.

Lemma sweep_inv (ks : list Z) (res : list (Z * value)) :
  bind (mapM mk ks) (mapM aw) = Ok res ->
  Forall2 (fun k kr => fst kr = k /\ unit_result valgrind args k = Ok (snd kr))
          ks res.
Proof.
  revert res; induction ks as [|k ks IH]; intros res H; simpl in H.
  - inversion H. constructor.
  - unfold sweep_task at 1 in H.
    destruct (OldRun.unit_args args k) as [a|e] eqn:Hu; simpl in H;
      [|discriminate].
    destruct (mapM mk ks) as [ts|e]; simpl in H; [|discriminate].
    unfold sweep_await at 1 in H. simpl in H.
    destruct (OldRun.execute valgrind a) as [r|e] eqn:Hr; simpl in H;
      [|discriminate].
    destruct (mapM aw ts) as [rs|e] eqn:Hrs; simpl in H; [|discriminate].
    inversion H; subst. constructor.
    + split; [reflexivity|]. unfold unit_result. rewrite Hu. exact Hr.
    + apply IH. simpl. exact Hrs.
Qed.

Lemma sweep_total (ks : list Z) :
  (forall k, In k ks -> exists r, unit_result valgrind args k = Ok r) ->
  exists res, bind (mapM mk ks) (mapM aw) = Ok res.
Proof.
  induction ks as [|k ks IH]; intros H; simpl.
  - eexists; reflexivity.
  - destruct (H k (or_introl eq_refl)) as [r Hr].
    destruct IH as [res Hres]; [intros; apply H; right; assumption|].
    unfold sweep_task at 1. unfold unit_result in Hr.
    destruct (OldRun.unit_args args k) as [a|e]; simpl in Hr |- *;
      [|discriminate].
    destruct (mapM mk ks) as [ts|e]; simpl in Hres |- *; [|discriminate].
    unfold sweep_await at 1. simpl. rewrite Hr. simpl. rewrite Hres.
    eexists; reflexivity.
Qed.

End OldSweep.

Lemma sweep_Forall2_keys (P : Z -> value -> Prop) (ks : list Z)
      (res : list (Z * value)) :
  Forall2 (fun k kr => fst kr = k /\ P k (snd kr)) ks res ->
  keys res = ks /\ Forall (fun kr => P (fst kr) (snd kr)) res.
Proof.
  induction 1 as [|k kr ks res [Hk HP] _ [IHk IHP]]; simpl.
  - split; constructor.
  - split; [rewrite Hk, IHk; reflexivity|].
    constructor; [rewrite Hk; exact HP | exact IHP].
Qed.

Lemma batch_execute_ok_step
      (valgrind : string -> Z -> Z -> option Z -> Z -> string)
      (args : OldRun.Args) (res : list (Z * value)) :
  OldRun.batch_execute valgrind args = Ok res -> OldRun.batch_step args <> 0.
Proof.
  unfold OldRun.batch_execute, range. intros H Hz.
  rewrite Hz in H. discriminate H.
Qed.

(** What a sweep that returns has collected: the keys are the values of the
    range in their order, and each key is mapped to what its unit of work
    returned. *)
Lemma batch_execute_ok_inv
      (valgrind : string -> Z -> Z -> option Z -> Z -> string)
      (args : OldRun.Args) (res : list (Z * value)) :
  OldRun.batch_execute valgrind args = Ok res ->
  keys res = range_list (OldRun.batch_start args) (OldRun.batch_end args + 1)
                        (OldRun.batch_step args) /\
  Forall (fun kr => unit_result valgrind args (fst kr) = Ok (snd kr)) res.
Proof.
  intros H. pose proof (batch_execute_ok_step _ _ H) as Hstep.
  rewrite batch_execute_spec in H by exact Hstep.
  apply sweep_inv in H.
  apply (sweep_Forall2_keys (fun k v => unit_result valgrind args k = Ok v)).
  exact H.
Qed.

(** A sweep returns when each of its units does. *)
Lemma batch_execute_total
      (valgrind : string -> Z -> Z -> option Z -> Z -> string)
      (args : OldRun.Args) :
  OldRun.batch_step args <> 0 ->
  (forall k,
      In k (range_list (OldRun.batch_start args) (OldRun.batch_end args + 1)
                       (OldRun.batch_step args)) ->
      exists r, unit_result valgrind args k = Ok r) ->
  exists res, OldRun.batch_execute valgrind args = Ok res.
Proof.
  intros Hstep H. rewrite batch_execute_spec by exact Hstep.
  apply sweep_total. exact H.
Qed.

(* ================================================================== *)
(** * C7: a sweep from 256 to 1024 by 256 *)
(* ================================================================== *)

(** C7.  For a sweep with start 256, end 1024 and step 256 the swept values
    are 256, 512, 768 and 1024, the end included.  A sweep that returns has
    exactly these four keys, each once, and maps each key to what the unit
    of work for that value returned; the sweep returns when each of the four
    units returns. *)
Theorem C7_sweep_256_1024 :
  forall (valgrind : string -> Z -> Z -> option Z -> Z -> string)
         (args : OldRun.Args),
    OldRun.batch_start args = 256 ->
    OldRun.batch_end args = 1024 ->
    OldRun.batch_step args = 256 ->
    range (OldRun.batch_start args) (OldRun.batch_end args + 1)
          (OldRun.batch_step args) = Ok [256; 512; 768; 1024] /\
    (forall res,
        OldRun.batch_execute valgrind args = Ok res ->
        keys res = [256; 512; 768; 1024] /\
        List.length res = 4%nat /\
        Forall (fun kr => unit_result valgrind args (fst kr) = Ok (snd kr))
               res) /\
    ((forall k, In k [256; 512; 768; 1024] ->
                exists r, unit_result valgrind args k = Ok r) ->
     exists res, OldRun.batch_execute valgrind args = Ok res).
Proof.
  intros valgrind args Hs He Hst.
  assert (Hr : range_list (OldRun.batch_start args) (OldRun.batch_end args + 1)
                          (OldRun.batch_step args) = [256; 512; 768; 1024])
    by (rewrite Hs, He, Hst; reflexivity).
  split; [rewrite Hs, He, Hst; reflexivity|].
  split.
  - intros res H. destruct (batch_execute_ok_inv _ _ H) as [Hk HF].
    rewrite Hr in Hk. split; [exact Hk|]. split; [|exact HF].
    unfold keys in Hk. rewrite <- (length_map fst), Hk. reflexivity.
  - intros H. apply batch_execute_total.
    + rewrite Hst. discriminate.
    + rewrite Hr. exact H.
Qed.

(** The theorem C7 at a sweep over the cache size, with a simulator that
    prints 1,000 references and 10 misses. *)
Lemma C7_witness :
  exists res,
    OldRun.batch_execute (const_valgrind (summary "1,000" "10"))
                         cache_sweep_args = Ok res /\
    keys res = [256; 512; 768; 1024].
Proof.
  destruct (@C7_sweep_256_1024 (const_valgrind (summary "1,000" "10"))
              cache_sweep_args eq_refl eq_refl eq_refl) as (_ & Hinv & Htot).
  destruct Htot as [res Hres].
  - intros k [<-|[<-|[<-|[<-|[]]]]]; eexists; vm_compute; reflexivity.
  - exists res. split; [exact Hres | exact (proj1 (Hinv res Hres))].
Defined.

(* ================================================================== *)
(** * C10: the configuration of each unit of a sweep *)
(* ================================================================== *)

(** C10.  In a sweep over the cache size, the unit for the value [i] has
    cache size [i] and the associativity [i // block], whatever
    associativity the configuration held; in a sweep over the size, the unit
    has size [i] and the associativity of the configuration, which [main]
    has resolved before the sweep; every other field of the unit is that of
    the configuration.  A sweep that returns maps each key to the result of
    the unit so configured. *)
Theorem C10_unit_configuration :
  forall (args : OldRun.Args) (i : Z),
    (OldRun.batch args = "cache" ->
     OldRun.unit_args args i =
     (a <- floordiv i (OldRun.block args) ;;
      Ok (OldRun.mkArgs (OldRun.type args) (OldRun.size args) i
            (OldRun.block args) (Some a) (OldRun.remove_cold args)
            (OldRun.batch args) (OldRun.batch_start args)
            (OldRun.batch_end args) (OldRun.batch_step args))) /\
     (OldRun.block args <> 0 ->
      exists u, OldRun.unit_args args i = Ok u /\
                OldRun.cache u = i /\
                OldRun.assoc u = Some (i / OldRun.block args))) /\
    (OldRun.batch args = "size" ->
     OldRun.unit_args args i =
     Ok (OldRun.mkArgs (OldRun.type args) i (OldRun.cache args)
           (OldRun.block args) (OldRun.assoc args) (OldRun.remove_cold args)
           (OldRun.batch args) (OldRun.batch_start args)
           (OldRun.batch_end args) (OldRun.batch_step args))) /\
    (forall args0 : OldRun.Args,
        OldRun.resolve_assoc args0 = Ok args ->
        exists a, OldRun.assoc args = Some a /\
                  (OldRun.assoc args0 = None ->
                   floordiv (OldRun.cache args0) (OldRun.block args0) = Ok a) /\
                  (forall a0, OldRun.assoc args0 = Some a0 -> a = a0)) /\
    (forall valgrind res,
        OldRun.batch_execute valgrind args = Ok res ->
        Forall (fun kr =>
                  exists u, OldRun.unit_args args (fst kr) = Ok u /\
                            OldRun.execute valgrind u = Ok (snd kr)) res).
Proof.
  intros args i. split; [|split; [|split]].
  - intros Hb.
    assert (E : String.eqb (OldRun.batch args) "cache" = true)
      by (rewrite Hb; reflexivity).
    unfold OldRun.unit_args. rewrite E. split; [reflexivity|].
    intros Hblk. cbn [OldRun.cache OldRun.block OldRun.set_cache].
    rewrite (floordiv_ok _ Hblk). eexists; repeat split.
  - intros Hb.
    assert (E1 : String.eqb (OldRun.batch args) "cache" = false)
      by (rewrite Hb; reflexivity).
    assert (E2 : String.eqb (OldRun.batch args) "size" = true)
      by (rewrite Hb; reflexivity).
    unfold OldRun.unit_args. rewrite E1, E2. reflexivity.
  - intros args0 H. unfold OldRun.resolve_assoc in H.
    destruct (OldRun.assoc args0) as [a0|] eqn:Ha0.
    + inversion H; subst. exists a0. split; [exact Ha0|].
      split; [discriminate | intros ? [=]; congruence].
    + destruct (floordiv (OldRun.cache args0) (OldRun.block args0))
        as [a|e] eqn:Hd; simpl in H; [|discriminate].
      inversion H; subst. exists a. split; [reflexivity|].
      split; [reflexivity | discriminate].
  - intros valgrind res H.
    destruct (batch_execute_ok_inv _ _ H) as [_ HF].
    eapply Forall_impl; [|exact HF].
    intros [k r]; simpl. unfold unit_result. intros Hu.
    destruct (OldRun.unit_args args k) as [u|e]; simpl in Hu; [|discriminate].
    exists u; split; [reflexivity | exact Hu].
Qed.

(** The theorem C10 at the value 512 of a sweep over the cache size whose
    configuration supplies an associativity of 2, and at the value 8 of a
    sweep over the size. *)
Lemma C10_witness :
  OldRun.unit_args cache_sweep_args 512
  = Ok (OldRun.mkArgs "double" 16 512 32 (Some 16) false "cache" 256 1024 256)
  /\
  OldRun.unit_args size_sweep_args 8
  = Ok (OldRun.mkArgs "double" 8 1024 32 (Some 32) false "size" 8 16 8).
Proof.
  split.
  - exact (proj1 (proj1 (@C10_unit_configuration cache_sweep_args 512) eq_refl)).
  - exact (proj1 (proj2 (@C10_unit_configuration size_sweep_args 8)) eq_refl).
Defined.

(* ================================================================== *)
(** * The batches of src/ordered.py *)
(* ================================================================== *)

Lemma firstn_add_skipn {A : Type} (a c : nat) (l : list A) :
  firstn (a + c) l = firstn a l ++ firstn c (skipn a l).
Proof.
  revert l; induction a as [|a IH]; intros l; simpl; [reflexivity|].
  destruct l as [|x l]; simpl.
  - rewrite firstn_nil. reflexivity.
  - f_equal. apply IH.
Qed.

Lemma to_nat_mul_of_nat (bs : Z) (k : nat) :
  0 < bs -> Z.to_nat (bs * Z.of_nat k) = (k * Z.to_nat bs)%nat.
Proof.
  intros Hb. rewrite Z2Nat.inj_mul by lia. rewrite Nat2Z.id. lia.
Qed.

(** The slice taken for the batch that starts at [bs * k]. *)
Lemma slice_chunk {A : Type} (tasks : list A) (bs : Z) (k : nat) :
  0 < bs ->
  slice tasks (bs * Z.of_nat k) (bs * Z.of_nat k + bs)
  = firstn (Z.to_nat bs) (skipn (k * Z.to_nat bs) tasks).
Proof.
  intros Hb. unfold slice, clip.
  set (n := Z.of_nat (List.length tasks)).
  set (i := bs * Z.of_nat k).
  assert (Hi : 0 <= i) by (unfold i; nia).
  destruct (Z.ltb_spec i 0) as [?|_]; [lia|].
  destruct (Z.ltb_spec (i + bs) 0) as [?|_]; [lia|].
  rewrite <- (to_nat_mul_of_nat k Hb). fold i.
  destruct (Z.le_gt_cases i n) as [Hle|Hgt].
  - replace (Z.max 0 (Z.min n i)) with i by lia.
    destruct (Z.le_gt_cases (i + bs) n) as [Hle2|Hgt2].
    + replace (Z.max 0 (Z.min n (i + bs)) - i) with bs by lia. reflexivity.
    + replace (Z.max 0 (Z.min n (i + bs)) - i) with (n - i) by lia.
      rewrite !firstn_all2; [reflexivity | |];
        rewrite length_skipn; unfold n in *; lia.
  - replace (Z.max 0 (Z.min n i)) with n by lia.
    replace (Z.max 0 (Z.min n (i + bs)) - n) with 0 by lia.
    simpl firstn.
    rewrite (skipn_all2 tasks (n := Z.to_nat i)) by (unfold n in *; lia).
    rewrite firstn_nil. reflexivity.
Qed.

Lemma run_batches_chunks {A : Type} (tasks : list (result A)) (bs : Z)
      (cnt k0 : nat) (acc : list A) :
  0 < bs ->
  Ordered.run_batches tasks bs
    (List.map (fun k => 0 + bs * Z.of_nat k) (seq k0 cnt)) acc
  = bind (Ordered.gather
            (firstn (cnt * Z.to_nat bs) (skipn (k0 * Z.to_nat bs) tasks)))
         (fun rs => Ok (acc ++ rs)).
Proof.
  intros Hb. unfold Ordered.gather.
  revert k0 acc; induction cnt as [|cnt IH]; intros k0 acc.
  - simpl. rewrite app_nil_r. reflexivity.
  - cbn [seq List.map Ordered.run_batches]. unfold Ordered.gather.
    rewrite Z.add_0_l, slice_chunk by exact Hb.
    change (S cnt * Z.to_nat bs)%nat with (Z.to_nat bs + cnt * Z.to_nat bs)%nat.
    rewrite firstn_add_skipn, mapM_app.
    destruct (mapM (fun t => t) (firstn (Z.to_nat bs) _)) as [rs|e];
      cbv beta iota delta [bind]; [|reflexivity].
    rewrite IH, skipn_skipn.
    change (S k0 * Z.to_nat bs)%nat with (Z.to_nat bs + k0 * Z.to_nat bs)%nat.
    destruct (mapM (fun t => t) _) as [rs'|e];
      cbv beta iota delta [bind]; [|reflexivity].
    rewrite app_assoc. reflexivity.
Qed.

Lemma range_len_covers (n : nat) (bs : Z) :
  0 < bs -> (n <= range_len 0 (Z.of_nat n) bs * Z.to_nat bs)%nat.
Proof.
  intros Hb. unfold range_len.
  destruct (Z.ltb_spec 0 bs) as [_|?]; [|lia].
  rewrite Z.sub_0_r.
  set (q := (Z.of_nat n + bs - 1) / bs).
  assert (Hq : Z.of_nat n <= q * bs).
  { pose proof (Z.div_mod (Z.of_nat n + bs - 1) bs ltac:(lia)) as Hdm.
    pose proof (Z.mod_pos_bound (Z.of_nat n + bs - 1) bs Hb) as Hm.
    fold q in Hdm. nia. }
  assert (Hq0 : 0 <= q) by (unfold q; apply Z.div_pos; lia).
  apply Nat2Z.inj_le. rewrite Nat2Z.inj_mul, !Z2Nat.id by lia. exact Hq.
Qed.

(** With a positive batch size the loop over the batches returns what
    gathering all the tasks at once returns. *)
Lemma run_batches_gather {A : Type} (tasks : list (result A)) (bs : Z) :
  0 < bs ->
  Ordered.run_batches tasks bs
    (range_list 0 (Z.of_nat (List.length tasks)) bs) []
  = Ordered.gather tasks.
Proof.
  intros Hb. unfold range_list.
  rewrite run_batches_chunks by exact Hb.
  simpl skipn. rewrite firstn_all2 by (apply range_len_covers; exact Hb).
  destruct (Ordered.gather tasks); reflexivity.
Qed.

Lemma mapM_pure {A B : Type} (f : A -> B) (l : list A) :
  mapM (fun x => Ok (f x)) l = Ok (List.map f l).
Proof.
  induction l as [|x l IH]; simpl; [reflexivity|]. rewrite IH. reflexivity.
Qed.

Lemma mapM_map {A B C : Type} (f : A -> B) (g : B -> result C) (l : list A) :
  mapM g (List.map f l) = mapM (fun x => g (f x)) l.
Proof.
  induction l as [|x l IH]; simpl; [reflexivity|]. rewrite IH. reflexivity.
Qed.

Lemma concat_rows {T : Type} (f : Z -> Z -> T) (ms ns : list Z) :
  List.concat (List.map (fun m => List.map (fun n => f m n) ns) ms)
  = List.map (fun p => f (fst p) (snd p)) (pairs ms ns).
Proof.
  unfold pairs. induction ms as [|m ms IH]; simpl; [reflexivity|].
  rewrite map_app, map_map, IH. reflexivity.
Qed.

Section OrderedSweep.

Variable cachegrind : Ordered.Binary -> Z -> Z -> Z -> string.
Variable order : list string.
Variables cache_size block_size : Z.
Variable assoc : option Z.

Local Abbreviation unit_task :=
  (Ordered._task cachegrind order cache_size block_size assoc).

Lemma task_key (m n : Z) (r : Z * Z * value) :
  unit_task m n = Ok r -> fst r = (m, n).
Proof.
  unfold Ordered._task.
  destruct (Ordered.compile_matrix m n "double" order) as [exe|e]; simpl;
    [|discriminate].
  destruct (Ordered.run_valgrind cachegrind exe cache_size block_size assoc)
    as [mr|e]; simpl; [|discriminate].
  intros H; inversion H; reflexivity.
Qed.

(** The coroutines [data_collect_tasks] yields, when it raises nothing. *)
Lemma data_collect_tasks_ok_inv (m0 m1 ms n0 n1 ns : Z)
      (tasks : list (result (Z * Z * value))) :
  Ordered.data_collect_tasks cachegrind order cache_size block_size assoc
                             (m0, m1, ms) (n0, n1, ns) = Ok tasks ->
  tasks = List.map (fun p => unit_task (fst p) (snd p))
                   (pairs (range_list m0 m1 ms) (range_list n0 n1 ns)).
Proof.
  unfold Ordered.data_collect_tasks, range.
  destruct (ms =? 0); [discriminate|]. cbv beta iota delta [bind].
  destruct (ns =? 0).
  - destruct (range_list m0 m1 ms) as [|m l]; simpl.
    + intros H; inversion H; reflexivity.
    + discriminate.
  - rewrite (mapM_pure (fun m => List.map (fun n => unit_task m n)
                                          (range_list n0 n1 ns))).
    intros H; inversion H. apply concat_rows.
Qed.

Lemma data_collect_tasks_total (m0 m1 ms n0 n1 ns : Z) :
  ms <> 0 -> ns <> 0 ->
  Ordered.data_collect_tasks cachegrind order cache_size block_size assoc
                             (m0, m1, ms) (n0, n1, ns)
  = Ok (List.map (fun p => unit_task (fst p) (snd p))
                 (pairs (range_list m0 m1 ms) (range_list n0 n1 ns))).
Proof.
  intros Hm Hn. unfold Ordered.data_collect_tasks, range.
  destruct (Z.eqb_spec ms 0); [contradiction|].
  destruct (Z.eqb_spec ns 0); [contradiction|].
  cbv beta iota delta [bind].
  rewrite (mapM_pure (fun m => List.map (fun n => unit_task m n)
                                        (range_list n0 n1 ns))).
  rewrite concat_rows. reflexivity.
Qed.

(** With a positive batch size, [batched_execute] gathers the coroutines
    in the order they were yielded. *)
Lemma batched_execute_gather (batch_size : Z) (m_range n_range : Z * Z * Z) :
  0 < batch_size ->
  Ordered.batched_execute cachegrind order batch_size cache_size block_size
                          assoc m_range n_range
  = (tasks <- Ordered.data_collect_tasks cachegrind order cache_size
                block_size assoc m_range n_range ;;
     Ordered.gather tasks).
Proof.
  intros Hb. unfold Ordered.batched_execute.
  destruct (Ordered.data_collect_tasks _ _ _ _ _ _ _) as [tasks|e];
    cbv beta iota delta [bind]; [|reflexivity].
  unfold range. destruct (Z.eqb_spec batch_size 0); [lia|].
  apply run_batches_gather; exact Hb.
Qed.

Lemma gathered_in_order (ps : list (Z * Z)) (res : list (Z * Z * value)) :
  Ordered.gather (List.map (fun p => unit_task (fst p) (snd p)) ps) = Ok res ->
  List.map fst res = ps /\
  Forall (fun r => unit_task (fst (fst r)) (snd (fst r)) = Ok r) res.
Proof.
  unfold Ordered.gather. rewrite mapM_map. intros H.
  apply mapM_ok_Forall2 in H.
  induction H as [|[m n] r ps res Hr _ [IH1 IH2]]; simpl.
  - split; constructor.
  - simpl in Hr. pose proof (task_key _ _ Hr) as Hk.
    split; [rewrite Hk, IH1; reflexivity|].
    constructor; [rewrite Hk; exact Hr | exact IH2].
Qed.

Lemma gather_total (ps : list (Z * Z)) :
  (forall m n, In (m, n) ps -> exists r, unit_task m n = Ok r) ->
  exists res,
    Ordered.gather (List.map (fun p => unit_task (fst p) (snd p)) ps) = Ok res.
Proof.
  intros H. unfold Ordered.gather. rewrite mapM_map.
  apply mapM_all_ok. intros [m n] Hin. apply H; exact Hin.
Qed.

End OrderedSweep.

(* ================================================================== *)
(** * C8: order of the collected results *)
(* ================================================================== *)

(** C8, as amended.  The collected results keep the order in which the
    swept keys are generated.  A mapping returned by [batch_execute] lists
    the keys of [range(start, end + 1, step)] in the order of that range,
    which is ascending when the step is positive.  For every positive batch
    size [batched_execute] returns what gathering all units at once returns,
    so its result does not depend on the batch size; a list it returns holds
    one entry per pair (m, n), in the order the nested loops generate the
    pairs, m in the outer loop and n in the inner one, each range ascending
    when its step is positive; and it returns a list when every unit
    returns. *)
Theorem C8_generation_order :
  (forall (valgrind : string -> Z -> Z -> option Z -> Z -> string)
          (args : OldRun.Args) (res : list (Z * value)),
      OldRun.batch_execute valgrind args = Ok res ->
      keys res = range_list (OldRun.batch_start args)
                            (OldRun.batch_end args + 1)
                            (OldRun.batch_step args) /\
      (0 < OldRun.batch_step args -> StronglySorted Z.lt (keys res))) /\
  (forall (cachegrind : Ordered.Binary -> Z -> Z -> Z -> string)
          (order : list string) (batch_size cache_size block_size : Z)
          (assoc : option Z) (m0 m1 ms n0 n1 ns : Z),
      0 < batch_size ->
      Ordered.batched_execute cachegrind order batch_size cache_size
                              block_size assoc (m0, m1, ms) (n0, n1, ns)
      = (tasks <- Ordered.data_collect_tasks cachegrind order cache_size
                    block_size assoc (m0, m1, ms) (n0, n1, ns) ;;
         Ordered.gather tasks) /\
      (forall res,
          Ordered.batched_execute cachegrind order batch_size cache_size
                                  block_size assoc (m0, m1, ms) (n0, n1, ns)
          = Ok res ->
          List.map fst res
          = pairs (range_list m0 m1 ms) (range_list n0 n1 ns) /\
          Forall (fun r =>
                    Ordered._task cachegrind order cache_size block_size assoc
                                 (fst (fst r)) (snd (fst r)) = Ok r) res) /\
      (0 < ms -> StronglySorted Z.lt (range_list m0 m1 ms)) /\
      (0 < ns -> StronglySorted Z.lt (range_list n0 n1 ns)) /\
      (ms <> 0 -> ns <> 0 ->
       (forall m n,
           In (m, n) (pairs (range_list m0 m1 ms) (range_list n0 n1 ns)) ->
           exists r, Ordered._task cachegrind order cache_size block_size
                                  assoc m n = Ok r) ->
       exists res,
         Ordered.batched_execute cachegrind order batch_size cache_size
                                 block_size assoc (m0, m1, ms) (n0, n1, ns)
         = Ok res)).
Proof.
  split.
  - intros valgrind args res H.
    destruct (batch_execute_ok_inv _ _ H) as [Hk _].
    split; [exact Hk|].
    intros Hstep. rewrite Hk. apply range_list_ascending; exact Hstep.
  - intros cachegrind order batch_size cache_size block_size assoc
           m0 m1 ms n0 n1 ns Hb.
    pose proof (batched_execute_gather cachegrind order cache_size block_size
                  assoc (m0, m1, ms) (n0, n1, ns) Hb) as Hg.
    split; [exact Hg|]. split; [|split; [|split]].
    + intros res H. rewrite Hg in H.
      apply bind_ok_inv in H as (tasks & Ht & Hres).
      apply data_collect_tasks_ok_inv in Ht. subst tasks.
      apply gathered_in_order; exact Hres.
    + apply range_list_ascending.
    + apply range_list_ascending.
    + intros Hm Hn Hall. rewrite Hg.
      rewrite data_collect_tasks_total by assumption.
      cbv beta iota delta [bind].
      apply gather_total; exact Hall.
Qed.

(** The theorem C8 at the sweep of [src/old/run.py] from 256 to 1024 by
    256, and at a sweep of [src/ordered.py] over m = 1, 2 and n = 5, 6, 7
    run in batches of 4. *)
Lemma C8_witness :
  OldRun.batch_execute (const_valgrind (summary "1,000" "10")) cache_sweep_args
  = Ok [(256, VFloat (1 # 100)); (512, VFloat (1 # 100));
        (768, VFloat (1 # 100)); (1024, VFloat (1 # 100))] /\
  StronglySorted Z.lt [256; 512; 768; 1024] /\
  (exists res,
      Ordered.batched_execute (const_cachegrind (summary "1,000" "10"))
                              Ordered.orders 4 1024 32 None (1, 3, 1) (5, 8, 1)
      = Ok res /\
      List.map fst res = [(1, 5); (1, 6); (1, 7); (2, 5); (2, 6); (2, 7)]).
Proof.
  destruct C8_generation_order as [Hold Hord].
  assert (E : OldRun.batch_execute (const_valgrind (summary "1,000" "10"))
                                   cache_sweep_args
              = Ok [(256, VFloat (1 # 100)); (512, VFloat (1 # 100));
                    (768, VFloat (1 # 100)); (1024, VFloat (1 # 100))])
    by (vm_compute; reflexivity).
  split; [exact E|]. split.
  - exact (proj2 (Hold _ _ _ E) eq_refl).
  - destruct (Hord (const_cachegrind (summary "1,000" "10")) Ordered.orders
                   4 1024 32 None 1 3 1 5 8 1 eq_refl)
      as (_ & Hinv & _ & _ & Htot).
    destruct Htot as [res Hres]; [discriminate | discriminate | |].
    + intros m n Hin. simpl in Hin.
      destruct Hin as [E'|[E'|[E'|[E'|[E'|[E'|[]]]]]]]; inversion E'; subst;
        eexists; vm_compute; reflexivity.
    + exists res. split; [exact Hres | exact (proj1 (Hinv res Hres))].
Defined.

(** C8 as stated fails.  With a batch size of -1 the loop over the batches
    runs no batch and [batched_execute] returns an empty list although six
    pairs were generated (a batch size of 0 raises [ValueError]); and a
    sweep with a negative step lists its keys in descending order. *)
Lemma C8_batch_size_and_step :
  Ordered.batched_execute (const_cachegrind (summary "1,000" "10"))
                          Ordered.orders (-1) 1024 32 None (1, 3, 1) (5, 8, 1)
  = Ok [] /\
  pairs (range_list 1 3 1) (range_list 5 8 1)
  = [(1, 5); (1, 6); (1, 7); (2, 5); (2, 6); (2, 7)] /\
  Ordered.batched_execute (const_cachegrind (summary "1,000" "10"))
                          Ordered.orders 0 1024 32 None (1, 3, 1) (5, 8, 1)
  = Raise ValueError /\
  OldRun.batch_execute (const_valgrind (summary "1,000" "10")) down_sweep_args
  = Ok [(3, VFloat (1 # 100)); (2, VFloat (1 # 100))] /\
  ~ StronglySorted Z.lt [3; 2].
Proof.
  split; [vm_compute; reflexivity|].
  split; [vm_compute; reflexivity|].
  split; [vm_compute; reflexivity|].
  split; [vm_compute; reflexivity|].
  intros H. inversion H as [|? ? _ HF]; subst.
  inversion HF as [|? ? Hlt _]; subst. lia.
Qed.

(* ================================================================== *)
(** * Further properties of the sweep of src/old/run.py *)
(* ================================================================== *)

(** The values of a range with a positive step. *)
Lemma range_list_In_pos (start stop step k : Z) :
  0 < step ->
  (In k (range_list start stop step)
   <-> start <= k < stop /\ (k - start) mod step = 0).
Proof.
  intros Hs. unfold range_list, range_len.
  destruct (Z.ltb_spec 0 step) as [_|?]; [|lia].
  set (q := (stop - start + step - 1) / step).
  assert (Hq : step * q <= stop - start + step - 1 < step * q + step).
  { pose proof (Z.div_mod (stop - start + step - 1) step ltac:(lia)) as Hdm.
    pose proof (Z.mod_pos_bound (stop - start + step - 1) step Hs) as Hm.
    fold q in Hdm. lia. }
  rewrite in_map_iff. split.
  - intros (j & <- & Hj). apply in_seq in Hj.
    assert (Hjq : Z.of_nat j < q) by lia.
    split; [nia|].
    replace (start + step * Z.of_nat j - start) with (Z.of_nat j * step) by ring.
    apply Z.mod_mul; lia.
  - intros [[Hlo Hhi] Hmod].
    apply Z.mod_divide in Hmod; [|lia]. destruct Hmod as [j Hj].
    assert (Hj0 : 0 <= j) by nia.
    exists (Z.to_nat j). split; [rewrite Z2Nat.id by exact Hj0; lia|].
    apply in_seq. split; [lia|]. simpl.
    assert (j < q) by nia. lia.
Qed.

Lemma range_len_pos (start stop step : Z) :
  0 < step ->
  range_len start (stop + 1) step = Z.to_nat ((stop - start) / step + 1).
Proof.
  intros Hs. unfold range_len.
  destruct (Z.ltb_spec 0 step) as [_|?]; [|lia].
  f_equal.
  replace (stop + 1 - start + step - 1) with (stop - start + 1 * step) by ring.
  apply Z.div_add; lia.
Qed.

Lemma range_list_length (start stop step : Z) :
  List.length (range_list start stop step) = range_len start stop step.
Proof. unfold range_list. rewrite length_map, length_seq. reflexivity. Qed.

(** X1.  In a sweep of [batch_execute] with a positive step that returns,
    [k] is a key of the result exactly when it lies between the start and
    the end, both included, at a whole number of steps from the start.  In
    particular the end value is a key only when the step divides its
    distance from the start. *)
Theorem X1_sweep_keys :
  forall (valgrind : string -> Z -> Z -> option Z -> Z -> string)
         (args : OldRun.Args) (res : list (Z * value)),
    OldRun.batch_execute valgrind args = Ok res ->
    0 < OldRun.batch_step args ->
    (forall k,
        In k (keys res)
        <-> OldRun.batch_start args <= k <= OldRun.batch_end args /\
            (OldRun.batch_step args | k - OldRun.batch_start args)) /\
    (In (OldRun.batch_end args) (keys res)
     <-> OldRun.batch_start args <= OldRun.batch_end args /\
         (OldRun.batch_step args
          | OldRun.batch_end args - OldRun.batch_start args)).
Proof.
  intros valgrind args res H Hs.
  destruct (batch_execute_ok_inv _ _ H) as [Hk _].
  assert (Hall : forall k,
    In k (keys res)
    <-> OldRun.batch_start args <= k <= OldRun.batch_end args /\
        (OldRun.batch_step args | k - OldRun.batch_start args)).
  { intros k. rewrite Hk, range_list_In_pos by exact Hs.
    rewrite Z.mod_divide by lia. intuition lia. }
  split; [exact Hall|].
  rewrite Hall. intuition lia.
Qed.

(** X2.  A sweep of [batch_execute] with a step of zero raises
    [ValueError] whatever the simulator prints.  With a positive step, a
    sweep that returns holds floor((end - start) / step) + 1 results when
    that number is positive and none otherwise; when the end is below the
    start it returns the empty mapping without running any unit. *)
Theorem X2_sweep_size :
  forall (valgrind : string -> Z -> Z -> option Z -> Z -> string)
         (args : OldRun.Args),
    (OldRun.batch_step args = 0 ->
     OldRun.batch_execute valgrind args = Raise ValueError) /\
    (0 < OldRun.batch_step args ->
     (forall res,
         OldRun.batch_execute valgrind args = Ok res ->
         List.length res
         = Z.to_nat ((OldRun.batch_end args - OldRun.batch_start args)
                     / OldRun.batch_step args + 1)) /\
     (OldRun.batch_end args < OldRun.batch_start args ->
      OldRun.batch_execute valgrind args = Ok [])).
Proof.
  intros valgrind args. split.
  - intros Hz. unfold OldRun.batch_execute, range. rewrite Hz. reflexivity.
  - intros Hs. split.
    + intros res H. destruct (batch_execute_ok_inv _ _ H) as [Hk _].
      unfold keys in Hk.
      rewrite <- (length_map fst), Hk, range_list_length.
      apply range_len_pos; exact Hs.
    + intros Hlt. rewrite batch_execute_spec by lia.
      unfold range_list. rewrite range_len_pos by exact Hs.
      replace (Z.to_nat _) with 0%nat; [reflexivity|].
      assert ((OldRun.batch_end args - OldRun.batch_start args)
              / OldRun.batch_step args < 0)
        by (apply Z.div_lt_upper_bound; lia).
      lia.
Qed.

(** The theorem X1 at the sweep from 0 to 10 by 3: 9 is a key, the end
    value 10 is not. *)
Lemma X1_witness :
  exists res,
    OldRun.batch_execute (const_valgrind (summary "1,000" "10")) sweep_0_10_3
    = Ok res /\
    In 9 (keys res) /\ ~ In 10 (keys res).
Proof.
  assert (E : OldRun.batch_execute (const_valgrind (summary "1,000" "10"))
                                   sweep_0_10_3
              = Ok [(0, VFloat (1 # 100)); (3, VFloat (1 # 100));
                    (6, VFloat (1 # 100)); (9, VFloat (1 # 100))])
    by (vm_compute; reflexivity).
  eexists. split; [exact E|].
  destruct (@X1_sweep_keys _ _ _ E eq_refl) as [Hk Hend].
  split.
  - apply Hk. simpl. split; [lia | exists 3; reflexivity].
  - intros Hin. apply Hend in Hin. destruct Hin as [_ [z Hz]].
    simpl in Hz. lia.
Defined.

(** The theorem X2 at a sweep with a step of zero and at the sweep from 0
    to 10 by 3, which holds four results. *)
Lemma X2_witness :
  OldRun.batch_execute (const_valgrind (summary "1,000" "10")) sweep_step_0
  = Raise ValueError /\
  exists res,
    OldRun.batch_execute (const_valgrind (summary "1,000" "10")) sweep_0_10_3
    = Ok res /\ List.length res = 4%nat.
Proof.
  split.
  - exact (proj1 (@X2_sweep_size (const_valgrind (summary "1,000" "10"))
                                 sweep_step_0) eq_refl).
  - assert (E : OldRun.batch_execute (const_valgrind (summary "1,000" "10"))
                                     sweep_0_10_3
                = Ok [(0, VFloat (1 # 100)); (3, VFloat (1 # 100));
                      (6, VFloat (1 # 100)); (9, VFloat (1 # 100))])
      by (vm_compute; reflexivity).
    eexists. split; [exact E|].
    exact (proj1 (proj2 (@X2_sweep_size (const_valgrind (summary "1,000" "10"))
                                        sweep_0_10_3) eq_refl) _ E).
Defined.

(** X3.  When the field to sweep is neither "cache" nor "size", every unit
    of [batch_execute] is configured like the original run: a sweep that
    returns maps every key to what [execute] returns for the unchanged
    configuration, so all its values are equal. *)
Theorem X3_unknown_field_sweep :
  forall (valgrind : string -> Z -> Z -> option Z -> Z -> string)
         (args : OldRun.Args) (res : list (Z * value)),
    OldRun.batch args <> "cache" -> OldRun.batch args <> "size" ->
    OldRun.batch_execute valgrind args = Ok res ->
    Forall (fun kr => OldRun.execute valgrind args = Ok (snd kr)) res /\
    (forall k1 v1 k2 v2, In (k1, v1) res -> In (k2, v2) res -> v1 = v2).
Proof.
  intros valgrind args res Hc Hs H.
  destruct (batch_execute_ok_inv _ _ H) as [_ HF].
  assert (Hu : forall k, OldRun.unit_args args k = Ok args).
  { intros k. unfold OldRun.unit_args.
    destruct (String.eqb_spec (OldRun.batch args) "cache"); [contradiction|].
    destruct (String.eqb_spec (OldRun.batch args) "size"); [contradiction|].
    reflexivity. }
  assert (HF' : Forall (fun kr => OldRun.execute valgrind args = Ok (snd kr))
                       res).
  { eapply Forall_impl; [|exact HF].
    intros [k v]. unfold unit_result. rewrite Hu. simpl. auto. }
  split; [exact HF'|].
  intros k1 v1 k2 v2 H1 H2.
  rewrite Forall_forall in HF'.
  pose proof (HF' _ H1) as E1. pose proof (HF' _ H2) as E2.
  simpl in E1, E2. congruence.
Qed.

(** The theorem X3 at a sweep over the unknown field "block". *)
Lemma X3_witness :
  exists res,
    OldRun.batch_execute (const_valgrind (summary "1,000" "10")) sweep_unknown
    = Ok res /\
    Forall (fun kr =>
              OldRun.execute (const_valgrind (summary "1,000" "10"))
                             sweep_unknown = Ok (snd kr)) res.
Proof.
  assert (E : OldRun.batch_execute (const_valgrind (summary "1,000" "10"))
                                   sweep_unknown
              = Ok [(1, VFloat (1 # 100)); (2, VFloat (1 # 100));
                    (3, VFloat (1 # 100))])
    by (vm_compute; reflexivity).
  eexists. split; [exact E|].
  refine (proj1 (@X3_unknown_field_sweep _ _ _ _ _ E)); discriminate.
Defined.

(* ================================================================== *)
(** * Further properties of the measurement *)
(* ================================================================== *)

Lemma measure_agree (args : OldRun.Args) (stderr : string) :
  OldRun.remove_cold args = false ->
  OldRun.measure args stderr = Ordered.measure stderr.
Proof.
  intros Hc. unfold OldRun.measure, Ordered.measure.
  rewrite (cold_miss_disabled _ Hc). cbv beta iota delta [bind].
  destruct (scan (stream_lines stderr) 0 0) as [[m r]|e]; [|reflexivity].
  destruct (Z.eqb_spec r 0) as [->|Hr]; [reflexivity|].
  rewrite !truediv_inject_Z by assumption.
  do 2 f_equal. apply Qred_complete.
  unfold Qminus. change (- 0)%Q with 0%Q. rewrite Qplus_0_r. reflexivity.
Qed.

(** X4.  With cold-miss removal disabled, [execute] of [src/old/run.py]
    and [run_valgrind] of [src/ordered.py] return the same value, or raise
    the same exception, on the same diagnostic stream. *)
Theorem X4_scripts_agree :
  forall (valgrind : string -> Z -> Z -> option Z -> Z -> string)
         (cachegrind : Ordered.Binary -> Z -> Z -> Z -> string)
         (args : OldRun.Args) (exe : Ordered.Binary)
         (cache_size block_size a : Z) (assoc : option Z),
    OldRun.remove_cold args = false ->
    Ordered.resolve_assoc cache_size block_size assoc = Ok a ->
    cachegrind exe cache_size a block_size = OldRun.simulation valgrind args ->
    OldRun.execute valgrind args
    = Ordered.run_valgrind cachegrind exe cache_size block_size assoc.
Proof.
  intros valgrind cachegrind args exe cache_size block_size a assoc
         Hc Ha Hs.
  rewrite (run_valgrind_measure _ _ _ _ _ Ha Hs).
  unfold OldRun.execute. apply measure_agree; exact Hc.
Qed.

(** The theorem X4 at the default configuration and a summary of 1,000
    references and 200 misses. *)
Lemma X4_witness :
  OldRun.execute (const_valgrind (summary "1,000" "200")) default_args
  = Ordered.run_valgrind (const_cachegrind (summary "1,000" "200"))
                         default_binary 1024 32 None.
Proof.
  exact (@X4_scripts_agree (const_valgrind (summary "1,000" "200"))
           (const_cachegrind (summary "1,000" "200"))
           default_args default_binary 1024 32 32 None
           eq_refl eq_refl eq_refl).
Defined.

Lemma scan_filter_plain (ls : list string) (m r : Z) :
  scan ls m r = scan (filter (fun l => negb (plain l)) ls) m r.
Proof.
  revert m r; induction ls as [|l ls IH]; intros m r; [reflexivity|].
  cbn [filter]. unfold plain at 1.
  destruct (contains "D1  misses" l) eqn:H1.
  - cbn [negb andb]. cbn [scan]. rewrite H1.
    destruct (counter l); simpl; [apply IH | reflexivity].
  - destruct (contains "D refs" l) eqn:H2.
    + cbn [negb andb]. cbn [scan]. rewrite H1, H2.
      destruct (counter l); simpl; [apply IH | reflexivity].
    + cbn [negb andb]. cbn [scan]. rewrite H1, H2. apply IH.
Qed.

(** X6.  Lines that carry neither label never affect a measurement: two
    diagnostic streams with the same labelled lines, in the same order,
    give the same result, value or exception, in [run_valgrind] and in
    [execute]. *)
Theorem X6_plain_lines_ignored :
  forall (s1 s2 : string),
    labelled_lines s1 = labelled_lines s2 ->
    (forall (cachegrind1 cachegrind2 : Ordered.Binary -> Z -> Z -> Z -> string)
            (exe : Ordered.Binary) (cache_size block_size a : Z)
            (assoc : option Z),
        Ordered.resolve_assoc cache_size block_size assoc = Ok a ->
        cachegrind1 exe cache_size a block_size = s1 ->
        cachegrind2 exe cache_size a block_size = s2 ->
        Ordered.run_valgrind cachegrind1 exe cache_size block_size assoc
        = Ordered.run_valgrind cachegrind2 exe cache_size block_size assoc) /\
    (forall (valgrind1 valgrind2 : string -> Z -> Z -> option Z -> Z -> string)
            (args : OldRun.Args),
        OldRun.simulation valgrind1 args = s1 ->
        OldRun.simulation valgrind2 args = s2 ->
        OldRun.execute valgrind1 args = OldRun.execute valgrind2 args).
Proof.
  intros s1 s2 H. unfold labelled_lines in H.
  assert (Hscan : scan (stream_lines s1) 0 0 = scan (stream_lines s2) 0 0).
  { rewrite (scan_filter_plain (stream_lines s1)),
            (scan_filter_plain (stream_lines s2)), H. reflexivity. }
  split.
  - intros cachegrind1 cachegrind2 exe cache_size block_size a assoc
           Ha H1 H2.
    rewrite (run_valgrind_measure _ _ _ _ _ Ha H1),
            (run_valgrind_measure _ _ _ _ _ Ha H2).
    unfold Ordered.measure. rewrite Hscan. reflexivity.
  - intros valgrind1 valgrind2 args H1 H2.
    rewrite (execute_measure _ _ H1), (execute_measure _ _ H2).
    unfold OldRun.measure. rewrite Hscan. reflexivity.
Qed.

(** The theorem X6 at a summary and the same summary between a banner and
    a trailer. *)
Lemma X6_witness :
  OldRun.execute (const_valgrind (summary "1,000" "200")) default_args
  = OldRun.execute
      (const_valgrind
         (unlines ["==1== Cachegrind"; "==1== D refs: 1,000"; "==1==";
                   "==1== D1  misses: 200"; "==1== LLd misses: 3"]))
      default_args.
Proof.
  refine (proj2 (@X6_plain_lines_ignored
                   (summary "1,000" "200")
                   (unlines ["==1== Cachegrind"; "==1== D refs: 1,000";
                             "==1=="; "==1== D1  misses: 200";
                             "==1== LLd misses: 3"]) _) _ _ _ _ _);
    reflexivity.
Defined.

Lemma last_of_snoc (p : string -> bool) (ls : list string) (l : string) :
  last_of p (ls ++ [l]) = if p l then Some l else last_of p ls.
Proof. unfold last_of. rewrite rev_app_distr. reflexivity. Qed.

Lemma read_last_snoc (p : string -> bool) (ls : list string) (l : string)
      (d : Z) :
  read_last p (ls ++ [l]) d = if p l then counter l else read_last p ls d.
Proof.
  unfold read_last. rewrite last_of_snoc. destruct (p l); reflexivity.
Qed.

(** On a stream the scan reads without raising, each counter ends as the
    count of the last line of its kind. *)
Lemma scan_last (ls : list string) (m0 r0 : Z) :
  forallb readable ls = true ->
  exists m r,
    read_last takes_miss ls m0 = Ok m /\
    read_last takes_refs ls r0 = Ok r /\
    scan ls m0 r0 = Ok (m, r).
Proof.
  induction ls as [|l ls IH] using rev_ind; intros Hread.
  - exists m0, r0. repeat split.
  - rewrite forallb_app in Hread.
    apply andb_true_iff in Hread as [Hls Hl]. simpl in Hl.
    rewrite andb_true_r in Hl.
    destruct (IH Hls) as (m & r & Hm & Hr & Hs).
    rewrite scan_app, Hs. cbv beta iota delta [bind fst snd].
    rewrite !read_last_snoc. unfold takes_miss, takes_refs.
    unfold readable, plain in Hl. cbn [scan].
    destruct (contains "D1  misses" l) eqn:H1.
    + cbn [negb andb orb] in Hl |- *.
      destruct (counter l) as [v|e]; [|discriminate Hl].
      exists v, r. repeat split; assumption.
    + destruct (contains "D refs" l) eqn:H2.
      * cbn [negb andb orb] in Hl |- *.
        destruct (counter l) as [v|e]; [|discriminate Hl].
        exists m, v. repeat split; assumption.
      * cbn [negb andb orb]. exists m, r. repeat split; assumption.
Qed.

(** X7.  On a diagnostic stream the scan reads without raising, the last
    line of each kind wins: [run_valgrind] returns the count of the last
    miss line divided by the count of the last reference line, whatever
    earlier lines of the same kinds hold; a kind that is absent counts as
    zero. *)
Theorem X7_last_line_wins :
  forall (cachegrind : Ordered.Binary -> Z -> Z -> Z -> string)
         (exe : Ordered.Binary) (cache_size block_size a : Z)
         (assoc : option Z),
    Ordered.resolve_assoc cache_size block_size assoc = Ok a ->
    forallb readable (stream_lines (cachegrind exe cache_size a block_size))
    = true ->
    exists m r,
      read_last takes_miss
                (stream_lines (cachegrind exe cache_size a block_size)) 0
      = Ok m /\
      read_last takes_refs
                (stream_lines (cachegrind exe cache_size a block_size)) 0
      = Ok r /\
      Ordered.run_valgrind cachegrind exe cache_size block_size assoc
      = Ok (ratio m 0 r).
Proof.
  intros cachegrind exe cache_size block_size a assoc Ha Hread.
  destruct (scan_last _ 0 0 Hread) as (m & r & Hm & Hr & Hs).
  exists m, r. split; [exact Hm|]. split; [exact Hr|].
  rewrite (run_valgrind_measure _ _ _ _ _ Ha eq_refl).
  apply ordered_measure_of_scan; exact Hs.
Qed.

(** The theorem X7 at a stream that holds two summaries: the second one
    gives the result. *)
Lemma X7_witness :
  Ordered.run_valgrind
    (const_cachegrind
       (unlines ["==1== D refs: 500"; "==1== D1  misses: 499";
                 "==1== D refs: 1,000"; "==1== D1  misses: 200"]))
    default_binary 1024 32 None
  = Ok (VFloat (1 # 5)).
Proof.
  destruct (@X7_last_line_wins
              (const_cachegrind
                 (unlines ["==1== D refs: 500"; "==1== D1  misses: 499";
                           "==1== D refs: 1,000"; "==1== D1  misses: 200"]))
              default_binary 1024 32 32 None eq_refl eq_refl)
    as (m & r & Hm & Hr & H).
  vm_compute in Hm, Hr.
  injection Hm as <-. injection Hr as <-. exact H.
Defined.

(* ================================================================== *)
(** * Further properties of reading a counter *)
(* ================================================================== *)

Lemma split_ws_from_blank (pad rest cur : string) :
  blank pad = true ->
  split_ws_from cur (String.append pad rest)
  = if is_empty pad then split_ws_from cur rest
    else if is_empty cur then split_ws_from "" rest
         else cur :: split_ws_from "" rest.
Proof.
  revert cur; induction pad as [|c pad IH]; intros cur H; [reflexivity|].
  unfold blank in H. simpl in H. apply andb_true_iff in H as [Hc Hp].
  simpl. rewrite Hc. rewrite !(IH _ Hp).
  destruct (is_empty pad), (is_empty cur); reflexivity.
Qed.

Lemma split_ws_from_token (tok rest cur : string) :
  forallb (fun c => negb (isspace c)) (chars tok) = true ->
  split_ws_from cur (String.append tok rest)
  = split_ws_from (String.append cur tok) rest.
Proof.
  revert cur; induction tok as [|c tok IH]; intros cur H.
  - simpl. replace (String.append cur "") with cur; [reflexivity|].
    induction cur as [|d cur IHc]; simpl; [reflexivity | f_equal; exact IHc].
  - simpl in H. apply andb_true_iff in H as [Hc Ht].
    apply negb_true_iff in Hc. simpl. rewrite Hc, (IH _ Ht).
    f_equal.
    induction cur as [|d cur IHc]; simpl; [reflexivity | f_equal; exact IHc].
Qed.

Lemma split_ws_from_trail (trail cur : string) :
  blank trail = true ->
  split_ws_from cur trail = if is_empty cur then [] else [cur].
Proof.
  intros H.
  replace trail with (String.append trail "")
    by (clear; induction trail as [|c t IH]; simpl;
        [reflexivity | f_equal; exact IH]).
  rewrite split_ws_from_blank by exact H. simpl.
  destruct (is_empty trail), (is_empty cur); reflexivity.
Qed.

Lemma split_ws_from_padded (pts : list (string * string))
      (trail cur : string) :
  blank trail = true ->
  forallb (fun pt => blank (fst pt) && token (snd pt)) pts = true ->
  forallb (fun pt => negb (is_empty (fst pt))) pts = true ->
  split_ws_from cur (pad_join pts trail)
  = (if is_empty cur then [] else [cur]) ++ List.map snd pts.
Proof.
  intros Ht. revert cur; induction pts as [|[pad tok] pts IH];
    intros cur Hw Hne; simpl.
  - rewrite app_nil_r. apply split_ws_from_trail; exact Ht.
  - simpl in Hw, Hne.
    apply andb_true_iff in Hw as [Hpt Hw].
    apply andb_true_iff in Hpt as [Hpad Htok].
    apply andb_true_iff in Hne as [Hp0 Hne].
    apply negb_true_iff in Hp0.
    unfold token in Htok. apply andb_true_iff in Htok as [Hte Htc].
    apply negb_true_iff in Hte.
    rewrite split_ws_from_blank by exact Hpad. rewrite Hp0.
    assert (Hrest : split_ws_from "" (String.append tok (pad_join pts trail))
                    = tok :: List.map snd pts).
    { rewrite split_ws_from_token by exact Htc. simpl.
      rewrite (IH tok Hw Hne), Hte. reflexivity. }
    rewrite Hrest. destruct (is_empty cur); reflexivity.
Qed.

(** The tokens of a padded line are its tokens. *)
Lemma split_ws_padded (pts : list (string * string)) (trail : string) :
  well_padded pts trail = true ->
  split_ws (pad_join pts trail) = List.map snd pts.
Proof.
  unfold well_padded, split_ws. intros H.
  apply andb_true_iff in H as [H Hne].
  apply andb_true_iff in H as [Ht Hw].
  destruct pts as [|[pad tok] pts]; simpl.
  - apply split_ws_from_trail; exact Ht.
  - simpl in Hw, Hne.
    apply andb_true_iff in Hw as [Hpt Hw].
    apply andb_true_iff in Hpt as [Hpad Htok].
    unfold token in Htok. apply andb_true_iff in Htok as [Hte Htc].
    apply negb_true_iff in Hte.
    rewrite split_ws_from_blank by exact Hpad.
    assert (Hrest : split_ws_from "" (String.append tok (pad_join pts trail))
                    = tok :: List.map snd pts).
    { rewrite split_ws_from_token by exact Htc. simpl.
      rewrite (@split_ws_from_padded pts trail tok Ht Hw Hne), Hte.
      reflexivity. }
    destruct (is_empty pad); exact Hrest.
Qed.

(** X8.  The count read on a line does not depend on the white space
    around its tokens: two lines with the same tokens, padded in any way,
    give the same count or the same exception.  The count is read from the
    fourth token, and a line of fewer than four tokens raises
    [IndexError]. *)
Theorem X8_padding_ignored :
  forall (pts pts' : list (string * string)) (trail trail' : string),
    well_padded pts trail = true ->
    well_padded pts' trail' = true ->
    List.map snd pts = List.map snd pts' ->
    counter (pad_join pts trail) = counter (pad_join pts' trail') /\
    counter (pad_join pts trail)
    = match nth_error (List.map snd pts) 3 with
      | Some tok => int (replace "," "" tok)
      | None => Raise IndexError
      end.
Proof.
  intros pts pts' trail trail' Hw Hw' Heq.
  assert (Hc : forall p t, well_padded p t = true ->
    counter (pad_join p t)
    = match nth_error (List.map snd p) 3 with
      | Some tok => int (replace "," "" tok)
      | None => Raise IndexError
      end).
  { intros p t H. unfold counter. rewrite (@split_ws_padded p t H).
    unfold index. cbn [Z.ltb Z.compare].
    destruct (Z.leb_spec (Z.of_nat (List.length (List.map snd p))) 3)
      as [Hle|Hgt]; cbn [orb].
    - destruct (nth_error (List.map snd p) 3) eqn:E; [|reflexivity].
      assert (nth_error (List.map snd p) 3 <> None) by congruence.
      apply nth_error_Some in H0. lia.
    - change (Z.to_nat 3) with 3%nat.
      destruct (nth_error (List.map snd p) 3); reflexivity. }
  split; [|apply Hc; exact Hw].
  rewrite (Hc _ _ Hw), (Hc _ _ Hw'), Heq. reflexivity.
Qed.

(** The theorem X8 at a reference line as recent and as older simulators
    pad it. *)
Lemma X8_witness :
  counter (pad_join [("", "==1=="); (" ", "D"); (" ", "refs:");
                     ("      ", "1,000")] "")
  = counter (pad_join [("", "==1=="); (" ", "D"); ("   ", "refs:");
                       (" ", "1,000")] "  ").
Proof.
  exact (proj1 (@X8_padding_ignored
                  [("", "==1=="); (" ", "D"); (" ", "refs:");
                   ("      ", "1,000")]
                  [("", "==1=="); (" ", "D"); ("   ", "refs:");
                   (" ", "1,000")] "" "  " eq_refl eq_refl eq_refl)).
Defined.

Lemma digits_of_uint_acc (u : Decimal.uint) (p : positive) :
  digits (Z.pos p) true (DecimalString.NilEmpty.string_of_uint u)
  = Some (Z.pos (Pos.of_uint_acc u p)).
Proof.
  revert p; induction u as [|u IH|u IH|u IH|u IH|u IH|u IH|u IH|u IH|u IH|u IH];
    intros p; [reflexivity|..];
    cbn [DecimalString.NilEmpty.string_of_uint digits Pos.of_uint_acc];
    match goal with
    | |- context [digit_val ?c] =>
        let v := eval vm_compute in (digit_val c) in
        change (digit_val c) with v
    end;
    cbv iota; rewrite <- IH; f_equal; lia.
Qed.

Lemma digits_of_uint (u : Decimal.uint) (b : bool) :
  u <> Decimal.Nil \/ b = true ->
  digits 0 b (DecimalString.NilEmpty.string_of_uint u) = Some (Z.of_N (Pos.of_uint u)).
Proof.
  revert b; induction u as [|u IH|u IH|u IH|u IH|u IH|u IH|u IH|u IH|u IH|u IH];
    intros b H.
  - destruct H as [H| ->]; [congruence | reflexivity].
  - cbn [DecimalString.NilEmpty.string_of_uint digits Pos.of_uint].
    change (digit_val "0") with (Some 0). cbv iota.
    change (10 * 0 + 0) with 0. apply IH. right; reflexivity.
  - exact (@digits_of_uint_acc u 1).
  - exact (@digits_of_uint_acc u 2).
  - exact (@digits_of_uint_acc u 3).
  - exact (@digits_of_uint_acc u 4).
  - exact (@digits_of_uint_acc u 5).
  - exact (@digits_of_uint_acc u 6).
  - exact (@digits_of_uint_acc u 7).
  - exact (@digits_of_uint_acc u 8).
  - exact (@digits_of_uint_acc u 9).
Qed.

Lemma to_uint_not_nil (n : N) : N.to_uint n <> Decimal.Nil.
Proof.
  intros H. pose proof (DecimalN.Unsigned.of_to n) as E.
  rewrite H in E. simpl in E. subst n. discriminate H.
Qed.

(** [int] reads back the decimal writing of a natural number. *)
Lemma int_of_decimal (n : N) :
  int (DecimalString.NilEmpty.string_of_uint (N.to_uint n)) = Ok (Z.of_N n).
Proof.
  pose proof (to_uint_not_nil n) as Hn.
  pose proof (@digits_of_uint (N.to_uint n) false (or_introl Hn)) as Hd.
  change (Pos.of_uint (N.to_uint n)) with (N.of_uint (N.to_uint n)) in Hd.
  rewrite DecimalN.Unsigned.of_to in Hd.
  unfold int.
  destruct (N.to_uint n) as [|u|u|u|u|u|u|u|u|u|u];
    [congruence|..];
    cbn [DecimalString.NilEmpty.string_of_uint] in Hd |- *; rewrite Hd; reflexivity.
Qed.

(** X9.  Reading a counter inverts decimal writing with separators: on a
    line whose fourth token, once its commas are removed, is the decimal
    writing of a natural number [n], the count read is [n], wherever the
    commas stand. *)
Theorem X9_counter_reads_decimal :
  forall (n : N) (line tok : string),
    index (split_ws line) 3 = Ok tok ->
    replace "," "" tok = DecimalString.NilEmpty.string_of_uint (N.to_uint n) ->
    counter line = Ok (Z.of_N n).
Proof.
  intros n line tok Hi Hr. unfold counter. rewrite Hi. simpl bind.
  rewrite Hr. apply int_of_decimal.
Qed.

(** The theorem X9 at a reference line that counts 1,234,567. *)
Lemma X9_witness :
  counter "==1== D refs:  1,234,567  (1,000,000 rd + 234,567 wr)"
  = Ok 1234567.
Proof.
  exact (@X9_counter_reads_decimal 1234567
           "==1== D refs:  1,234,567  (1,000,000 rd + 234,567 wr)"
           "1,234,567" eq_refl eq_refl).
Defined.

(* ================================================================== *)
(** * Further properties of names and orders *)
(* ================================================================== *)

Lemma not_letter_raises (c : ascii) :
  loop_letter c = false ->
  (k <- str_index "IJK" c ;; index Ordered.orders k) = Raise ValueError.
Proof.
  unfold loop_letter. intros H.
  apply orb_false_iff in H as [H HK]. apply orb_false_iff in H as [HI HJ].
  unfold str_index. cbn [str_index_from].
  rewrite (Ascii.eqb_sym "I" c), (Ascii.eqb_sym "J" c), (Ascii.eqb_sym "K" c).
  rewrite HI, HJ, HK. reflexivity.
Qed.

Lemma name_to_order_letters (s : string) :
  Ordered.name_to_order s
  = if forallb loop_letter (chars s) then Ok (macros s)
    else Raise ValueError.
Proof.
  unfold Ordered.name_to_order, macros.
  induction (chars s) as [|c cs IH]; [reflexivity|].
  cbn [mapM forallb List.map].
  destruct (loop_letter c) eqn:Hc.
  - rewrite (letter_to_macro c Hc). cbn [bind andb]. rewrite IH.
    destruct (forallb loop_letter cs); reflexivity.
  - rewrite (not_letter_raises c Hc). reflexivity.
Qed.

(** X10.  [name_to_order] checks the letters of a name and nothing else: it
    returns the loop macros of the letters, in order, when every letter is
    I, J or K, and raises [ValueError] otherwise.  It accepts a name of any
    length, the empty one included, and a name that repeats a letter. *)
Theorem X10_name_to_order_checks_letters :
  forall s : string,
    Ordered.name_to_order s
    = if forallb loop_letter (chars s) then Ok (macros s)
      else Raise ValueError.
Proof. exact name_to_order_letters. Qed.

Lemma order_to_name_macros (cs : list ascii) :
  forallb loop_letter cs = true ->
  mapM (fun i => index (split_on "_" i) 0) (List.map macro cs)
  = Ok (List.map (fun c => String c "") cs).
Proof.
  induction cs as [|c cs IH]; intros H; [reflexivity|].
  simpl in H. apply andb_true_iff in H as [Hc Hcs].
  cbn [List.map mapM]. unfold macro at 1.
  rewrite (macro_to_letter c Hc), (IH Hcs). reflexivity.
Qed.

Lemma join_letters (s : string) :
  join (List.map (fun c => String c "") (chars s)) = s.
Proof.
  induction s as [|c s IH]; [reflexivity|].
  cbn [chars List.map]. unfold join in *. cbn [fold_right].
  rewrite IH. reflexivity.
Qed.

(** The name of the order a valid name stands for is that name. *)
Lemma order_to_name_macros_of (s : string) :
  forallb loop_letter (chars s) = true ->
  Ordered.order_to_name (macros s) = Ok s.
Proof.
  intros H. unfold Ordered.order_to_name, macros.
  rewrite (order_to_name_macros _ H). cbn [bind].
  rewrite join_letters. reflexivity.
Qed.

Lemma macros_of_order (o : list string) :
  Forall (fun x => In x Ordered.orders) o ->
  exists s, forallb loop_letter (chars s) = true /\ macros s = o.
Proof.
  induction 1 as [|x o Hx _ (s & Hs & Ho)].
  - exists "". split; reflexivity.
  - unfold Ordered.orders in Hx. simpl in Hx.
    destruct Hx as [<-|[<-|[<-|[]]]].
    + exists (String "I" s). split; [exact Hs | unfold macros in *; simpl; f_equal; exact Ho].
    + exists (String "J" s). split; [exact Hs | unfold macros in *; simpl; f_equal; exact Ho].
    + exists (String "K" s). split; [exact Hs | unfold macros in *; simpl; f_equal; exact Ho].
Qed.

(** X11.  For an order made of the three loop macros, of any length and
    with or without repetition, [order_to_name] returns a name of as many
    letters and [name_to_order] maps that name back to the order. *)
Theorem X11_order_round_trip :
  forall o : list string,
    Forall (fun x => In x Ordered.orders) o ->
    exists s,
      Ordered.order_to_name o = Ok s /\
      String.length s = List.length o /\
      Ordered.name_to_order s = Ok o.
Proof.
  intros o Ho. destruct (macros_of_order Ho) as (s & Hs & <-).
  exists s. split; [apply order_to_name_macros_of; exact Hs|].
  split.
  - unfold macros. rewrite length_map, chars_length. reflexivity.
  - rewrite name_to_order_letters, Hs. reflexivity.
Qed.

(** The theorem X11 at the order K, I, J. *)
Lemma X11_witness :
  exists s,
    Ordered.order_to_name ["K_LOOP"; "I_LOOP"; "J_LOOP"] = Ok s /\
    String.length s = 3%nat /\
    Ordered.name_to_order s = Ok ["K_LOOP"; "I_LOOP"; "J_LOOP"].
Proof.
  apply (@X11_order_round_trip ["K_LOOP"; "I_LOOP"; "J_LOOP"]).
  unfold Ordered.orders.
  repeat (constructor; [simpl; tauto|]). constructor.
Defined.

(* ================================================================== *)
(** * Further properties of the sweep of src/ordered.py *)
(* ================================================================== *)

Lemma index_short {A : Type} (l : list A) (i : Z) :
  0 <= i -> Z.of_nat (List.length l) <= i -> index l i = Raise IndexError.
Proof.
  intros H0 H. unfold index.
  assert (E : (i <? 0) = false) by (apply Z.ltb_ge; lia).
  rewrite !E. cbn [orb].
  destruct (Z.leb_spec (Z.of_nat (List.length l)) i); [|lia].
  reflexivity.
Qed.

Lemma index_firstn {A : Type} (l : list A) (n : nat) (i : Z) :
  0 <= i < Z.of_nat n ->
  index (firstn n l) i = index l i.
Proof.
  intros Hi. unfold index.
  assert (E : (i <? 0) = false) by (apply Z.ltb_ge; lia).
  rewrite !E. cbn [orb]. rewrite length_firstn.
  destruct (Z.leb_spec (Z.of_nat (List.length l)) i) as [Hle|Hgt].
  - destruct (Z.leb_spec (Z.of_nat (Nat.min n (List.length l))) i);
      [reflexivity | lia].
  - destruct (Z.leb_spec (Z.of_nat (Nat.min n (List.length l))) i); [lia|].
    rewrite nth_error_firstn.
    destruct (Nat.ltb_spec (Z.to_nat i) n); [reflexivity | lia].
Qed.

Lemma compile_matrix_short (M N : Z) (type : string) (order : list string) :
  (List.length order < 3)%nat ->
  Ordered.compile_matrix M N type order = Raise IndexError.
Proof.
  intros H. unfold Ordered.compile_matrix.
  destruct order as [|a [|b [|c order]]]; simpl in H; try lia; reflexivity.
Qed.

Lemma compile_matrix_firstn (M N : Z) (type : string) (order : list string) :
  Ordered.compile_matrix M N type (firstn 3 order)
  = Ordered.compile_matrix M N type order.
Proof.
  unfold Ordered.compile_matrix.
  rewrite !index_firstn by lia. reflexivity.
Qed.

Lemma gather_all_raise {A B : Type} (f : A -> result B) (l : list A)
      (e : exn) :
  l <> [] -> (forall x, f x = Raise e) ->
  Ordered.gather (List.map f l) = Raise e.
Proof.
  intros Hne Hf. destruct l as [|x l]; [congruence|].
  unfold Ordered.gather. simpl. rewrite Hf. reflexivity.
Qed.

Lemma pairs_not_nil (ms ns : list Z) :
  ms <> [] -> ns <> [] -> pairs ms ns <> [].
Proof.
  intros Hm Hn. destruct ms as [|m ms]; [congruence|].
  destruct ns as [|n ns]; [congruence|]. discriminate.
Qed.

(** X12.  An order of fewer than three entries is not rejected when it is
    read, but every unit of work raises [IndexError] when it builds its
    kernel: with a positive batch size and two ranges that are not empty,
    [batched_execute] raises [IndexError] whatever the simulator prints. *)
Theorem X12_short_order_raises :
  forall (cachegrind : Ordered.Binary -> Z -> Z -> Z -> string)
         (order : list string) (batch_size cache_size block_size : Z)
         (assoc : option Z) (m0 m1 ms n0 n1 ns : Z),
    (List.length order < 3)%nat ->
    0 < batch_size -> ms <> 0 -> ns <> 0 ->
    range_list m0 m1 ms <> [] -> range_list n0 n1 ns <> [] ->
    (forall m n,
        Ordered._task cachegrind order cache_size block_size assoc m n
        = Raise IndexError) /\
    Ordered.batched_execute cachegrind order batch_size cache_size block_size
                            assoc (m0, m1, ms) (n0, n1, ns)
    = Raise IndexError.
Proof.
  intros cachegrind order batch_size cache_size block_size assoc
         m0 m1 ms n0 n1 ns Hlen Hb Hms Hns Hm Hn.
  assert (Ht : forall m n,
    Ordered._task cachegrind order cache_size block_size assoc m n
    = Raise IndexError).
  { intros m n. unfold Ordered._task.
    rewrite compile_matrix_short by exact Hlen. reflexivity. }
  split; [exact Ht|].
  rewrite batched_execute_gather by exact Hb.
  rewrite data_collect_tasks_total by assumption.
  cbv beta iota delta [bind].
  apply gather_all_raise.
  - apply pairs_not_nil; assumption.
  - intros p. apply Ht.
Qed.

(** The theorem X12 at the order read from the name "IJ". *)
Lemma X12_witness :
  Ordered.name_to_order "IJ" = Ok ["I_LOOP"; "J_LOOP"] /\
  small_sweep (const_cachegrind (summary "1,000" "10")) ["I_LOOP"; "J_LOOP"] 4
  = Raise IndexError.
Proof.
  split; [reflexivity|].
  refine (proj2 (@X12_short_order_raises
                   (const_cachegrind (summary "1,000" "10"))
                   ["I_LOOP"; "J_LOOP"] 4 1024 32 None 1 3 1 5 8 1
                   _ eq_refl _ _ _ _)); simpl; try lia; discriminate.
Defined.

Lemma mapM_ext {A B : Type} (f g : A -> result B) (l : list A) :
  (forall x, f x = g x) -> mapM f l = mapM g l.
Proof.
  intros H. induction l as [|x l IH]; simpl; [reflexivity|].
  rewrite H, IH. reflexivity.
Qed.

Lemma task_firstn (cachegrind : Ordered.Binary -> Z -> Z -> Z -> string)
      (order : list string) (cache_size block_size : Z) (assoc : option Z)
      (m n : Z) :
  Ordered._task cachegrind (firstn 3 order) cache_size block_size assoc m n
  = Ordered._task cachegrind order cache_size block_size assoc m n.
Proof. unfold Ordered._task. rewrite compile_matrix_firstn. reflexivity. Qed.

(** X13.  Entries of an order beyond the third are never used: a sweep of
    [batched_execute] for an order gives the same result, list or
    exception, as the sweep for its first three entries. *)
Theorem X13_order_tail_ignored :
  forall (cachegrind : Ordered.Binary -> Z -> Z -> Z -> string)
         (order : list string) (batch_size cache_size block_size : Z)
         (assoc : option Z) (m_range n_range : Z * Z * Z),
    Ordered.batched_execute cachegrind (firstn 3 order) batch_size cache_size
                            block_size assoc m_range n_range
    = Ordered.batched_execute cachegrind order batch_size cache_size
                              block_size assoc m_range n_range.
Proof.
  intros cachegrind order batch_size cache_size block_size assoc
         [[m0 m1] ms] [[n0 n1] ns].
  unfold Ordered.batched_execute.
  replace (Ordered.data_collect_tasks cachegrind (firstn 3 order) cache_size
             block_size assoc (m0, m1, ms) (n0, n1, ns))
    with (Ordered.data_collect_tasks cachegrind order cache_size
             block_size assoc (m0, m1, ms) (n0, n1, ns)); [reflexivity|].
  unfold Ordered.data_collect_tasks.
  destruct (range m0 m1 ms) as [mrange|e]; [|reflexivity].
  cbn [bind].
  match goal with
  | |- bind (mapM ?f ?l) _ = bind (mapM ?g _) _ =>
      rewrite (@mapM_ext _ _ f g l); [reflexivity|]
  end.
  intros m. destruct (range n0 n1 ns) as [nrange|e]; [|reflexivity].
  cbn [bind]. f_equal.
  apply map_ext. intros n. symmetry. apply task_firstn.
Qed.

Lemma range_list_neg_step (n : nat) (bs : Z) :
  bs < 0 -> range_list 0 (Z.of_nat n) bs = [].
Proof.
  intros Hb. unfold range_list, range_len.
  destruct (Z.ltb_spec 0 bs); [lia|].
  replace (Z.to_nat ((0 - Z.of_nat n - bs - 1) / - bs)) with 0%nat;
    [reflexivity|].
  assert ((0 - Z.of_nat n - bs - 1) / - bs < 1)
    by (apply Z.div_lt_upper_bound; lia).
  lia.
Qed.

(** X14.  The batch size of [batched_execute] is not checked.  When the
    two ranges have non-zero steps, a negative batch size makes it return
    the empty list without running any unit, whatever the ranges hold, and
    a batch size of zero makes it raise [ValueError]. *)
Theorem X14_degenerate_batch_size :
  forall (cachegrind : Ordered.Binary -> Z -> Z -> Z -> string)
         (order : list string) (batch_size cache_size block_size : Z)
         (assoc : option Z) (m0 m1 ms n0 n1 ns : Z),
    ms <> 0 -> ns <> 0 ->
    (batch_size < 0 ->
     Ordered.batched_execute cachegrind order batch_size cache_size
                             block_size assoc (m0, m1, ms) (n0, n1, ns)
     = Ok []) /\
    (batch_size = 0 ->
     Ordered.batched_execute cachegrind order batch_size cache_size
                             block_size assoc (m0, m1, ms) (n0, n1, ns)
     = Raise ValueError).
Proof.
  intros cachegrind order batch_size cache_size block_size assoc
         m0 m1 ms n0 n1 ns Hms Hns.
  unfold Ordered.batched_execute.
  rewrite data_collect_tasks_total by assumption.
  cbv beta iota delta [bind]. unfold range. split.
  - intros Hb. destruct (Z.eqb_spec batch_size 0); [lia|].
    rewrite range_list_neg_step by exact Hb. reflexivity.
  - intros ->. reflexivity.
Qed.

(** The theorem X14 at the batch sizes -4 and 0. *)
Lemma X14_witness :
  small_sweep (const_cachegrind (summary "1,000" "10")) Ordered.orders (-4)
  = Ok [] /\
  small_sweep (const_cachegrind (summary "1,000" "10")) Ordered.orders 0
  = Raise ValueError.
Proof.
  split.
  - refine (proj1 (@X14_degenerate_batch_size
                     (const_cachegrind (summary "1,000" "10")) Ordered.orders
                     (-4) 1024 32 None 1 3 1 5 8 1 _ _) eq_refl);
      discriminate.
  - refine (proj2 (@X14_degenerate_batch_size
                     (const_cachegrind (summary "1,000" "10")) Ordered.orders
                     0 1024 32 None 1 3 1 5 8 1 _ _) eq_refl);
      discriminate.
Defined.

Lemma pairs_length (ms ns : list Z) :
  List.length (pairs ms ns) = (List.length ms * List.length ns)%nat.
Proof.
  unfold pairs. induction ms as [|m ms IH]; simpl; [reflexivity|].
  rewrite length_app, length_map, IH. reflexivity.
Qed.

Lemma pairs_In (ms ns : list Z) (m n : Z) :
  In (m, n) (pairs ms ns) <-> In m ms /\ In n ns.
Proof.
  unfold pairs. rewrite in_flat_map. split.
  - intros (m' & Hm & Hin). apply in_map_iff in Hin as (n' & E & Hn).
    inversion E; subst. split; assumption.
  - intros [Hm Hn]. exists m. split; [exact Hm|].
    apply in_map_iff. exists n. split; [reflexivity | exact Hn].
Qed.

Lemma pairs_NoDup (ms ns : list Z) :
  NoDup ms -> NoDup ns -> NoDup (pairs ms ns).
Proof.
  intros Hm Hn. unfold pairs.
  induction Hm as [|m ms Hnotin Hm IH]; simpl; [constructor|].
  apply NoDup_app.
  - apply Injective_map_NoDup; [|exact Hn].
    intros a b E. inversion E; reflexivity.
  - exact IH.
  - intros [m' n'] H1 H2.
    apply in_map_iff in H1 as (n1 & E & _). inversion E; subst.
    apply (pairs_In ms ns m' n') in H2. destruct H2 as [H2 _].
    contradiction.
Qed.

(** X15.  A sweep of [batched_execute] with a positive batch size that
    returns holds one result per pair (m, n) of the two ranges: as many
    results as the product of the lengths of the ranges, no pair twice,
    and a result for (m, n) exactly when m is a value of the first range
    and n a value of the second. *)
Theorem X15_one_result_per_pair :
  forall (cachegrind : Ordered.Binary -> Z -> Z -> Z -> string)
         (order : list string) (batch_size cache_size block_size : Z)
         (assoc : option Z) (m0 m1 ms n0 n1 ns : Z)
         (res : list (Z * Z * value)),
    0 < batch_size ->
    Ordered.batched_execute cachegrind order batch_size cache_size block_size
                            assoc (m0, m1, ms) (n0, n1, ns) = Ok res ->
    List.length res
    = (range_len m0 m1 ms * range_len n0 n1 ns)%nat /\
    NoDup (List.map fst res) /\
    (forall m n,
        In (m, n) (List.map fst res)
        <-> In m (range_list m0 m1 ms) /\ In n (range_list n0 n1 ns)).
Proof.
  intros cachegrind order batch_size cache_size block_size assoc
         m0 m1 ms n0 n1 ns res Hb H.
  rewrite batched_execute_gather in H by exact Hb.
  apply bind_ok_inv in H as (tasks & Ht & Hres).
  assert (Hms : ms <> 0).
  { intros ->. unfold Ordered.data_collect_tasks, range in Ht.
    discriminate Ht. }
  pose proof (data_collect_tasks_ok_inv _ _ _ _ _ _ _ _ _ _ _ Ht) as E.
  subst tasks.
  destruct (gathered_in_order _ _ _ _ _ _ Hres) as [Hk _].
  split; [|split].
  - rewrite <- (length_map fst), Hk, pairs_length, !range_list_length.
    reflexivity.
  - rewrite Hk.
    destruct (Z.eq_dec ns 0) as [->|Hns].
    + unfold Ordered.data_collect_tasks, range in Ht.
      destruct (Z.eqb_spec ms 0); [contradiction|].
      cbv beta iota delta [bind] in Ht. cbn [Z.eqb] in Ht.
      destruct (range_list m0 m1 ms); [constructor | discriminate Ht].
    + apply pairs_NoDup; apply range_list_NoDup; assumption.
  - intros m n. rewrite Hk. apply pairs_In.
Qed.

(** The theorem X15 at a sweep over m = 1, 2 and n = 5, 6, 7. *)
Lemma X15_witness :
  exists res,
    small_sweep (const_cachegrind (summary "1,000" "10")) Ordered.orders 4
    = Ok res /\
    List.length res = 6%nat.
Proof.
  assert (E : small_sweep (const_cachegrind (summary "1,000" "10"))
                          Ordered.orders 4
              = Ok [(1, 5, VFloat (1 # 100)); (1, 6, VFloat (1 # 100));
                    (1, 7, VFloat (1 # 100)); (2, 5, VFloat (1 # 100));
                    (2, 6, VFloat (1 # 100)); (2, 7, VFloat (1 # 100))])
    by (vm_compute; reflexivity).
  eexists. split; [exact E|].
  exact (proj1 (@X15_one_result_per_pair
                  (const_cachegrind (summary "1,000" "10")) Ordered.orders
                  4 1024 32 None 1 3 1 5 8 1 _ eq_refl E)).
Defined.

(* ================================================================== *)
(** * The entry point of src/ordered.py *)
(* ================================================================== *)

Lemma sdict_set_fresh {V : Type} (k : string) (v : V)
      (d : list (string * V)) :
  ~ In k (List.map fst d) -> sdict_set k v d = d ++ [(k, v)].
Proof.
  induction d as [|[k' v'] d IH]; simpl; intros H; [reflexivity|].
  destruct (String.eqb_spec k' k) as [->|Hne];
    [exfalso; apply H; left; reflexivity|].
  f_equal. apply IH. intros Hin; apply H; right; exact Hin.
Qed.

Lemma name_to_order_all (names : list string) :
  mapM Ordered.name_to_order names
  = if forallb valid_name names then Ok (List.map macros names)
    else Raise ValueError.
Proof.
  induction names as [|n names IH]; [reflexivity|].
  cbn [mapM forallb List.map]. rewrite name_to_order_letters.
  fold (valid_name n). destruct (valid_name n); [|reflexivity].
  cbn [bind andb]. rewrite IH.
  destruct (forallb valid_name names); reflexivity.
Qed.

Section OrderedMain.

Variable cachegrind : Ordered.Binary -> Z -> Z -> Z -> string.
Variable args : Ordered.Args.

(** The loop of [main] over orders that stand for distinct valid names:
    each insertion appends. *)
Lemma main_loop_names (names : list string)
      (data : list (string * list (Z * Z * value))) :
  forallb valid_name names = true -> NoDup names ->
  (forall n, In n names -> ~ In n (List.map fst data)) ->
  Ordered.main_loop cachegrind args (List.map macros names) data
  = bind (mapM (series cachegrind args) names) (fun rs => Ok (data ++ rs)).
Proof.
  revert data; induction names as [|n names IH]; intros data Hv Hnd Hfresh.
  - simpl. rewrite app_nil_r. reflexivity.
  - simpl in Hv. apply andb_true_iff in Hv as [Hn Hv].
    inversion Hnd as [|? ? Hnotin Hnd']; subst.
    cbn [List.map Ordered.main_loop mapM]. unfold series at 1.
    destruct (Ordered.batched_execute cachegrind (macros n) _ _ _ _ _ _)
      as [results|e]; cbn [bind]; [|reflexivity].
    rewrite (order_to_name_macros_of n Hn). cbn [bind].
    rewrite sdict_set_fresh by (apply Hfresh; left; reflexivity).
    rewrite IH.
    + destruct (mapM (series cachegrind args) names); cbn [bind];
        [|reflexivity].
      rewrite <- app_assoc. reflexivity.
    + exact Hv.
    + exact Hnd'.
    + intros n' Hin. rewrite map_app, in_app_iff. simpl.
      intros [H|[H|[]]].
      * apply (Hfresh n'); [right; exact Hin | exact H].
      * subst n'. contradiction.
Qed.

Lemma main_of_names (names : list string) :
  Ordered.order args <> "ALL" ->
  split_on "," (Ordered.order args) = names ->
  forallb valid_name names = true -> NoDup names ->
  Ordered.main cachegrind args = mapM (series cachegrind args) names.
Proof.
  intros Hall Hsplit Hv Hnd. unfold Ordered.main.
  destruct (String.eqb_spec (Ordered.order args) "ALL"); [contradiction|].
  rewrite Hsplit, name_to_order_all, Hv. cbn [bind].
  rewrite main_loop_names; [|exact Hv | exact Hnd | intros ? _ []].
  destruct (mapM (series cachegrind args) names); reflexivity.
Qed.

Lemma main_of_all :
  Ordered.order args = "ALL" ->
  Ordered.main cachegrind args = mapM (series cachegrind args) all_names.
Proof.
  intros Hall. unfold Ordered.main. rewrite Hall.
  change (String.eqb "ALL" "ALL") with true. cbv iota.
  rewrite order_generator_value. cbn [bind].
  change [["I_LOOP"; "J_LOOP"; "K_LOOP"]; ["I_LOOP"; "K_LOOP"; "J_LOOP"];
          ["J_LOOP"; "I_LOOP"; "K_LOOP"]; ["J_LOOP"; "K_LOOP"; "I_LOOP"];
          ["K_LOOP"; "I_LOOP"; "J_LOOP"]; ["K_LOOP"; "J_LOOP"; "I_LOOP"]]
    with (List.map macros all_names).
  rewrite main_loop_names.
  - destruct (mapM (series cachegrind args) all_names); reflexivity.
  - reflexivity.
  - unfold all_names. repeat constructor; simpl; intuition discriminate.
  - intros ? _ [].
Qed.

End OrderedMain.

(** X16.  For an order string that lists distinct names made of the
    letters I, J and K, separated by commas, [main] of [src/ordered.py]
    sweeps the names in the order given and collects one series per name,
    stored under the name as it was typed; it raises what the first
    failing sweep raises. *)
Theorem X16_main_series_per_name :
  forall (cachegrind : Ordered.Binary -> Z -> Z -> Z -> string)
         (args : Ordered.Args) (names : list string),
    split_on "," (Ordered.order args) = names ->
    forallb valid_name names = true -> NoDup names ->
    Ordered.main cachegrind args = mapM (series cachegrind args) names /\
    (forall data,
        Ordered.main cachegrind args = Ok data ->
        List.map fst data = names).
Proof.
  intros cachegrind args names Hsplit Hv Hnd.
  assert (Hall : Ordered.order args <> "ALL").
  { intros E. rewrite E in Hsplit. subst names. discriminate Hv. }
  pose proof (main_of_names cachegrind args Hall Hsplit Hv Hnd) as Hmain.
  split; [exact Hmain|].
  intros data H. rewrite Hmain in H.
  apply mapM_ok_Forall2 in H.
  clear -H. induction H as [|n d names data Hn _ IH]; [reflexivity|].
  simpl. rewrite IH. f_equal.
  unfold series in Hn.
  destruct (Ordered.batched_execute _ _ _ _ _ _ _ _); simpl in Hn;
    [|discriminate].
  inversion Hn; reflexivity.
Qed.

(** The theorem X16 at the order string "KIJ,IJK". *)
Lemma X16_witness :
  exists data,
    Ordered.main (const_cachegrind (summary "1,000" "10"))
                 (ordered_args "KIJ,IJK") = Ok data /\
    List.map fst data = ["KIJ"; "IJK"].
Proof.
  destruct (@X16_main_series_per_name
              (const_cachegrind (summary "1,000" "10"))
              (ordered_args "KIJ,IJK") ["KIJ"; "IJK"] eq_refl eq_refl)
    as [Hmain Hkeys].
  - repeat constructor; simpl; intuition discriminate.
  - assert (E : exists data,
               mapM (series (const_cachegrind (summary "1,000" "10"))
                            (ordered_args "KIJ,IJK")) ["KIJ"; "IJK"]
               = Ok data)
      by (eexists; vm_compute; reflexivity).
    destruct E as [data E]. rewrite <- Hmain in E.
    exists data. split; [exact E | exact (Hkeys data E)].
Defined.

(** X17.  With the order string "ALL", [main] of [src/ordered.py] sweeps
    the six loop orders in the order IJK, IKJ, JIK, JKI, KIJ, KJI and
    stores each series under its own name, so no series replaces another;
    the outcome is that of the order string
    "IJK,IKJ,JIK,JKI,KIJ,KJI". *)
Theorem X17_main_all_orders :
  forall (cachegrind : Ordered.Binary -> Z -> Z -> Z -> string)
         (args : Ordered.Args),
    Ordered.order args = "ALL" ->
    Ordered.main cachegrind args = mapM (series cachegrind args) all_names /\
    Ordered.main cachegrind args
    = Ordered.main cachegrind (set_order args "IJK,IKJ,JIK,JKI,KIJ,KJI").
Proof.
  intros cachegrind args Hall.
  pose proof (main_of_all cachegrind args Hall) as Hmain.
  split; [exact Hmain|]. rewrite Hmain.
  symmetry.
  apply (@main_of_names cachegrind
           (set_order args "IJK,IKJ,JIK,JKI,KIJ,KJI") all_names).
  - discriminate.
  - reflexivity.
  - reflexivity.
  - unfold all_names. repeat constructor; simpl; intuition discriminate.
Qed.

(** The theorem X17 at a small sweep: six series, keyed by the six names. *)
Lemma X17_witness :
  exists data,
    Ordered.main (const_cachegrind (summary "1,000" "10")) (ordered_args "ALL")
    = Ok data /\
    List.map fst data = all_names.
Proof.
  destruct (@X17_main_all_orders (const_cachegrind (summary "1,000" "10"))
              (ordered_args "ALL") eq_refl) as [Hmain _].
  assert (E : exists data,
             mapM (series (const_cachegrind (summary "1,000" "10"))
                          (ordered_args "ALL")) all_names
             = Ok data /\ List.map fst data = all_names)
    by (eexists; split; vm_compute; reflexivity).
  destruct E as (data & E & Hk). rewrite <- Hmain in E.
  exists data. split; assumption.
Defined.

(** X18.  When the order string is not "ALL" and one of the names it
    lists holds a character other than I, J and K, [main] of
    [src/ordered.py] raises [ValueError] whatever the simulator prints:
    all names are read before the first sweep starts. *)
Theorem X18_main_rejects_bad_name :
  forall (cachegrind : Ordered.Binary -> Z -> Z -> Z -> string)
         (args : Ordered.Args),
    Ordered.order args <> "ALL" ->
    forallb valid_name (split_on "," (Ordered.order args)) = false ->
    Ordered.main cachegrind args = Raise ValueError.
Proof.
  intros cachegrind args Hall Hbad. unfold Ordered.main.
  destruct (String.eqb_spec (Ordered.order args) "ALL"); [contradiction|].
  rewrite name_to_order_all, Hbad. reflexivity.
Qed.

(** The theorem X18 at the order string "IJK,ALL". *)
Lemma X18_witness :
  Ordered.main (const_cachegrind (summary "1,000" "10"))
               (ordered_args "IJK,ALL")
  = Raise ValueError.
Proof.
  apply (@X18_main_rejects_bad_name
           (const_cachegrind (summary "1,000" "10")) (ordered_args "IJK,ALL"));
    [discriminate | reflexivity].
Defined.

(* ================================================================== *)
(** * src/plot.py *)
(* ================================================================== *)

Lemma index_nth_error {A : Type} (l : list A) (k : nat) :
  index l (Z.of_nat k)
  = match nth_error l k with
    | Some x => Ok x
    | None => Raise IndexError
    end.
Proof.
  unfold index.
  assert (E : (Z.of_nat k <? 0) = false) by (apply Z.ltb_ge; lia).
  rewrite !E. cbn [orb]. rewrite Nat2Z.id.
  destruct (Z.leb_spec (Z.of_nat (List.length l)) (Z.of_nat k)) as [Hle|Hgt];
    [|reflexivity].
  destruct (nth_error l k) eqn:Hn; [|reflexivity].
  assert (nth_error l k <> None) by congruence.
  apply nth_error_Some in H. lia.
Qed.

(** A column of a table: present when every row is long enough, an
    [IndexError] otherwise. *)
Lemma column_spec {A : Type} (data : list (list A)) (k : nat) :
  (forallb (fun row => (k <? List.length row)%nat) data = true ->
   exists x, mapM (fun i => index i (Z.of_nat k)) data = Ok x /\
             Forall2 (fun row v => nth_error row k = Some v) data x) /\
  (forallb (fun row => (k <? List.length row)%nat) data = false ->
   mapM (fun i => index i (Z.of_nat k)) data = Raise IndexError).
Proof.
  induction data as [|row data [IHt IHf]]; split; intros H.
  - exists []. split; [reflexivity | constructor].
  - discriminate H.
  - simpl in H. apply andb_true_iff in H as [Hr Hd].
    destruct (IHt Hd) as (x & Hx & HF).
    apply Nat.ltb_lt in Hr. apply nth_error_Some in Hr.
    destruct (nth_error row k) as [v|] eqn:Hv; [|congruence].
    exists (v :: x). split.
    + cbn [mapM]. rewrite index_nth_error, Hv, Hx. reflexivity.
    + constructor; assumption.
  - cbn [mapM]. rewrite index_nth_error. simpl in H.
    destruct (Nat.ltb_spec k (List.length row)) as [Hlt|Hge].
    + apply nth_error_Some in Hlt.
      destruct (nth_error row k); [|congruence].
      cbn [bind]. simpl in H. rewrite (IHf H). reflexivity.
    + apply nth_error_None in Hge. rewrite Hge. reflexivity.
Qed.

Lemma three_wide_columns (data : list (list value)) (k : nat) :
  (k < 3)%nat -> three_wide data = true ->
  forallb (fun row => (k <? List.length row)%nat) data = true.
Proof.
  intros Hk H. unfold three_wide in H.
  rewrite forallb_forall in H |- *. intros row Hin.
  specialize (H row Hin). apply Nat.leb_le in H. apply Nat.ltb_lt. lia.
Qed.

Lemma forallb_pointwise {A : Type} (f g : A -> bool) (l : list A) :
  (forall x, f x = g x) -> forallb f l = forallb g l.
Proof.
  intros H. induction l as [|x l IH]; [reflexivity|].
  cbn [forallb]. rewrite H, IH. reflexivity.
Qed.

Lemma not_three_wide_column (data : list (list value)) :
  three_wide data = false ->
  forallb (fun row => (2 <? List.length row)%nat) data = false.
Proof.
  unfold three_wide. intros H. rewrite <- H.
  apply forallb_pointwise. intros row.
  destruct (Nat.ltb_spec 2 (List.length row)),
           (Nat.leb_spec 3 (List.length row)); try reflexivity; lia.
Qed.

(** X19.  [plot_3d] passes three columns to the charting library when
    every row of its data has at least three entries: the columns are as
    long as the data, and row by row they hold the first, second and third
    entry; further entries of a row are ignored.  When some row has fewer
    than three entries it raises [IndexError]. *)
Theorem X19_plot_3d_columns :
  forall data : list (list value),
    (three_wide data = true ->
     exists x y z,
       Plot.plot_3d data = Ok (x, y, z) /\
       Forall2 (fun row v => nth_error row 0 = Some v) data x /\
       Forall2 (fun row v => nth_error row 1 = Some v) data y /\
       Forall2 (fun row v => nth_error row 2 = Some v) data z /\
       List.length x = List.length data /\
       List.length y = List.length data /\
       List.length z = List.length data) /\
    (three_wide data = false -> Plot.plot_3d data = Raise IndexError).
Proof.
  intros data. unfold Plot.plot_3d. split; intros H.
  - destruct (proj1 (column_spec data 0)
                    (@three_wide_columns data 0 ltac:(lia) H)) as (x & Hx & Fx).
    destruct (proj1 (column_spec data 1)
                    (@three_wide_columns data 1 ltac:(lia) H)) as (y & Hy & Fy).
    destruct (proj1 (column_spec data 2)
                    (@three_wide_columns data 2 ltac:(lia) H)) as (z & Hz & Fz).
    simpl Z.of_nat in Hx, Hy, Hz.
    exists x, y, z. rewrite Hx, Hy, Hz.
    split; [reflexivity|].
    repeat split; try assumption; symmetry;
      eapply Forall2_length; eassumption.
  - pose proof (proj2 (column_spec data 2) (@not_three_wide_column data H))
      as Hz.
    simpl Z.of_nat in Hz.
    destruct (forallb (fun row => (0 <? List.length row)%nat) data) eqn:H0.
    + destruct (proj1 (column_spec data 0) H0) as (x & Hx & _).
      simpl Z.of_nat in Hx. rewrite Hx. cbn [bind].
      destruct (forallb (fun row => (1 <? List.length row)%nat) data) eqn:H1.
      * destruct (proj1 (column_spec data 1) H1) as (y & Hy & _).
        simpl Z.of_nat in Hy. rewrite Hy, Hz. reflexivity.
      * pose proof (proj2 (column_spec data 1) H1) as Hy.
        simpl Z.of_nat in Hy. rewrite Hy. reflexivity.
    + pose proof (proj2 (column_spec data 0) H0) as Hx.
      simpl Z.of_nat in Hx. rewrite Hx. reflexivity.
Qed.

(** The theorem X19 at a table of two rows, the second with a fourth
    entry, and at a table with a row of two entries. *)
Lemma X19_witness :
  Plot.plot_3d [[VInt 8; VInt 8; VFloat (1 # 4)];
                [VInt 8; VInt 16; VFloat (1 # 5); VInt 7]]
  = Ok ([VInt 8; VInt 8], [VInt 8; VInt 16], [VFloat (1 # 4); VFloat (1 # 5)])
  /\
  Plot.plot_3d [[VInt 8; VInt 8; VFloat (1 # 4)]; [VInt 8; VInt 16]]
  = Raise IndexError.
Proof.
  split.
  - destruct (proj1 (@X19_plot_3d_columns
                       [[VInt 8; VInt 8; VFloat (1 # 4)];
                        [VInt 8; VInt 16; VFloat (1 # 5); VInt 7]]) eq_refl)
      as (x & y & z & H & _).
    rewrite H. vm_compute in H. exact (eq_sym H).
  - exact (proj2 (@X19_plot_3d_columns
                    [[VInt 8; VInt 8; VFloat (1 # 4)]; [VInt 8; VInt 16]])
                 eq_refl).
Defined.

(* ================================================================== *)
(** * Degenerate ranges and unique keys *)
(* ================================================================== *)

Lemma range_list_empty (bs : Z) : bs <> 0 -> range_list 0 0 bs = [].
Proof.
  intros Hb. unfold range_list, range_len.
  destruct (Z.ltb_spec 0 bs) as [Hp|Hn].
  - rewrite Z.div_small by lia. reflexivity.
  - rewrite Z.div_small by lia. reflexivity.
Qed.

(** X21.  The steps of the two ranges of [batched_execute] are checked
    only when a range is built.  A step of zero in the range of M raises
    [ValueError]; a step of zero in the range of N raises [ValueError] when
    the range of M holds a value, and goes unnoticed when the range of M is
    empty: the sweep then returns the empty list. *)
Theorem X21_zero_steps :
  forall (cachegrind : Ordered.Binary -> Z -> Z -> Z -> string)
         (order : list string) (batch_size cache_size block_size : Z)
         (assoc : option Z) (m0 m1 ms n0 n1 ns : Z),
    (ms = 0 ->
     Ordered.batched_execute cachegrind order batch_size cache_size
                             block_size assoc (m0, m1, ms) (n0, n1, ns)
     = Raise ValueError) /\
    (ms <> 0 -> ns = 0 -> range_list m0 m1 ms <> [] ->
     Ordered.batched_execute cachegrind order batch_size cache_size
                             block_size assoc (m0, m1, ms) (n0, n1, ns)
     = Raise ValueError) /\
    (ms <> 0 -> ns = 0 -> range_list m0 m1 ms = [] -> batch_size <> 0 ->
     Ordered.batched_execute cachegrind order batch_size cache_size
                             block_size assoc (m0, m1, ms) (n0, n1, ns)
     = Ok []).
Proof.
  intros cachegrind order batch_size cache_size block_size assoc
         m0 m1 ms n0 n1 ns.
  unfold Ordered.batched_execute, Ordered.data_collect_tasks, range.
  split; [|split].
  - intros ->. reflexivity.
  - intros Hms -> Hne.
    destruct (Z.eqb_spec ms 0); [contradiction|].
    cbn [bind Z.eqb].
    destruct (range_list m0 m1 ms); [congruence | reflexivity].
  - intros Hms -> He Hb.
    destruct (Z.eqb_spec ms 0); [contradiction|].
    cbn [bind]. rewrite He. cbn [mapM bind List.concat List.length Z.of_nat].
    destruct (Z.eqb_spec batch_size 0); [contradiction|].
    cbn [bind]. rewrite range_list_empty by assumption. reflexivity.
Qed.

(** The theorem X21 at an empty range of M with a step of zero for N. *)
Lemma X21_witness :
  empty_m_zero_n (const_cachegrind (summary "1,000" "10")) = Ok [].
Proof.
  refine (proj2 (proj2 (@X21_zero_steps
                          (const_cachegrind (summary "1,000" "10"))
                          Ordered.orders 4 1024 32 None 3 1 1 5 8 0))
                _ eq_refl eq_refl _); discriminate.
Defined.





